(** * Provisioning front end: API client and detail-page polling

    A shallow embedding of the TypeScript front end of the media
    provisioning system:

    - [frontend/src/lib/api/types.ts]   the data model,
    - [frontend/src/lib/api/mock.ts]    the in-repo mock backend,
    - [frontend/src/lib/api/client.ts]  [requestJson] and the public wrappers,
    - [frontend/src/app/movie/[tmdbId]/page.tsx]  [mapTaskStatus] and the
      task polling effect.

    Asynchronous functions are modelled in an exception-and-state monad over
    a [World] that holds the module-level [mockTasks] map and the trace of
    network and timer events; the network, the clock and the random source
    are explicit inputs. The detail page is a machine over the events that
    reach it (time passing, a poll settling, a provision resolving), with the
    state of its hooks, its interval timer and the log of the status requests
    it makes. The home feed and the media detail ([getHomeFeed],
    [getTmdbDetail], their mock data and the rendering of the page) are not
    part of the provisioning surface and are left out. *)

From Stdlib Require Import Ascii.
From stdpp Require Import base strings list gmap fin_maps pretty.

Set Warnings "-register-all".

(** ** JavaScript values

    What [response.json()] hands back: the [as T] casts of the client are not
    checked at run time, so payloads the client inspects defensively are kept
    as untyped values. Numbers are only tested for being zero by this
    program; integers stand for them. *)

Module Js.

Inductive JsVal : Type :=
| JUndefined
| JNull
| JBool (b : bool)
| JNum (n : Z)
| JStr (s : string)
| JArr (items : list JsVal)
| JObj (props : list (string * JsVal)).

(** [!!v]: the falsy values are [undefined], [null], [false], [0] and the
    empty string. *)
Definition truthy (v : JsVal) : bool :=
  match v with
  | JUndefined | JNull => false
  | JBool b => b
  | JNum n => negb (n =? 0)%Z
  | JStr s => negb (String.eqb s "")
  | JArr _ | JObj _ => true
  end.

Fixpoint own_prop (props : list (string * JsVal)) (k : string) : option JsVal :=
  match props with
  | [] => None
  | (k', v) :: rest => if String.eqb k' k then Some v else own_prop rest k
  end.

(** [v.k] for a data property name [k] (none of the names read by this
    program exists on a primitive's or an array's prototype). Reading a
    property of [null] or [undefined] raises a TypeError: [None]. *)
Definition get (v : JsVal) (k : string) : option JsVal :=
  match v with
  | JUndefined | JNull => None
  | JObj props => Some (default JUndefined (own_prop props k))
  | _ => Some JUndefined
  end.

(** The same read where the receiver is known not to be nullish. *)
Definition prop (v : JsVal) (k : string) : JsVal :=
  default JUndefined (get v k).

(** [a || b] *)
Definition or (a b : JsVal) : JsVal := if truthy a then a else b.

(** [a || b] on optional strings: [undefined] and [""] are falsy. *)
Definition or_str (a : option string) (b : string) : string :=
  match a with
  | Some s => if String.eqb s "" then b else s
  | None => b
  end.

End Js.

Import Js.

(** ** types.ts *)

Inductive ResourceStatus := VIRTUAL | MATERIALIZED | PROVISIONING | FAILED.

Inductive TaskStatus := pending | processing | completed | failed.

Definition ResourceStatus_str (s : ResourceStatus) : string :=
  match s with
  | VIRTUAL => "VIRTUAL"
  | MATERIALIZED => "MATERIALIZED"
  | PROVISIONING => "PROVISIONING"
  | FAILED => "FAILED"
  end.

Definition TaskStatus_str (s : TaskStatus) : string :=
  match s with
  | pending => "pending"
  | processing => "processing"
  | completed => "completed"
  | failed => "failed"
  end.

Record ApiErrorShape := {
  message : string;
  code : option string;
  status : option Z;
  requestId : option string
}.

Inductive MetaSource := SourceMock | SourceBackend.

Record ApiMeta := {
  source : MetaSource;
  warning : option string
}.

Record ApiResult (T : Type) := {
  res_ok : bool;
  res_data : option T;
  res_error : option ApiErrorShape;
  res_meta : option ApiMeta
}.
Arguments res_ok {T} _.
Arguments res_data {T} _.
Arguments res_error {T} _.
Arguments res_meta {T} _.

Record QuarkLink := {
  link_id : string;
  link_title : string;
  shareUrl : string;
  quality : option string;
  size_label : option string;
  matchScore : option (Z * Z)   (* a decimal literal, as numerator over denominator *)
}.

Abbreviation LinkItem := QuarkLink.

Record QuarkSearchParams := {
  qs_tmdbId : option string;
  qs_query : option string
}.

Record BackendResourceItem := {
  item_id : option string;
  messageId : option string;
  item_title : option string;
  content : option string;
  cloudLinks : option (list string)
}.

Record BackendResourceGroup := {
  group_id : string;
  group_list : list BackendResourceItem
}.

Record BackendResourceSearchResponse := {
  data : list BackendResourceGroup
}.

Record TaskRecord := {
  taskId : string;
  task_status : TaskStatus;
  tmdbId : string;
  linkId : option string;
  updatedAt : string;
  progress : option Z;
  resultWebdavUrl : option string;
  errorMessage : option string
}.

Record SaveVirtualLinkParams := {
  sv_tmdbId : string;
  sv_linkId : string;
  sv_title : string;
  sv_shareUrl : string
}.

Record TriggerJitProvisionParams := {
  jp_tmdbId : string;
  jp_linkId : string;
  jp_shareUrl : option string
}.

Record RetryOptions := {
  retries : Z;
  backoffMs : Z
}.

(** An object literal of the client seen as a run-time value: optional
    members that are [undefined] read as [undefined], like absent ones. *)
Definition opt_member (k : string) (v : option string) : list (string * JsVal) :=
  match v with
  | Some s => [(k, JStr s)]
  | None => []
  end.

Definition TaskRecord_obj (r : TaskRecord) : JsVal :=
  JObj ([("taskId", JStr (taskId r));
         ("status", JStr (TaskStatus_str (task_status r)));
         ("tmdbId", JStr (tmdbId r))]
        ++ opt_member "linkId" (linkId r)
        ++ [("updatedAt", JStr (updatedAt r))]
        ++ match progress r with Some p => [("progress", JNum p)] | None => [] end
        ++ opt_member "resultWebdavUrl" (resultWebdavUrl r)
        ++ opt_member "errorMessage" (errorMessage r)).

Definition SaveVirtualLinkParams_obj (p : SaveVirtualLinkParams) : JsVal :=
  JObj [("tmdbId", JStr (sv_tmdbId p)); ("linkId", JStr (sv_linkId p));
        ("title", JStr (sv_title p)); ("shareUrl", JStr (sv_shareUrl p))].

Definition TriggerJitProvisionParams_obj (p : TriggerJitProvisionParams) : JsVal :=
  JObj ([("tmdbId", JStr (jp_tmdbId p)); ("linkId", JStr (jp_linkId p))]
        ++ opt_member "shareUrl" (jp_shareUrl p)).

(** ** mock.ts

    [client.ts] imports [getMockQuarkLinks] from ["./mock"], a file that is not
    among the sources beside it; the definitions below are those of
    [Quark-Media-System/frontend/src/lib/api/mock.ts], the only [mock.ts] of
    the repository, which exports a function of that name and signature. *)

(** What a read [table[key]] of a plain object hands back where an [A] is
    expected: an own property, or, for a key that names a member of
    [Object.prototype], that member, which is truthy and not an [A]. *)
Inductive Returned (A : Type) :=
| Value (a : A)
| PrototypeMember (name : string).
Arguments Value {A} _.
Arguments PrototypeMember {A} _.

Definition object_prototype_members : list string :=
  ["constructor"; "__defineGetter__"; "__defineSetter__"; "hasOwnProperty";
   "__lookupGetter__"; "__lookupSetter__"; "isPrototypeOf"; "propertyIsEnumerable";
   "toString"; "valueOf"; "__proto__"; "toLocaleString"].

Module Mock.

Definition mockQuarkLinks : list (string * list QuarkLink) :=
  [("872585",
    [{| link_id := "q1"; link_title := "Signal Drift 4K Pack";
        shareUrl := "https://pan.quark.cn/s/placeholder-1";
        quality := Some "4K"; size_label := Some "12.4 GB";
        matchScore := Some (92, 100)%Z |};
     {| link_id := "q2"; link_title := "Signal Drift 1080p";
        shareUrl := "https://pan.quark.cn/s/placeholder-2";
        quality := Some "1080p"; size_label := Some "6.1 GB";
        matchScore := Some (84, 100)%Z |}]);
   ("114399",
    [{| link_id := "q3"; link_title := "Afterglow Harbor Collection";
        shareUrl := "https://pan.quark.cn/s/placeholder-3";
        quality := Some "1080p"; size_label := Some "5.4 GB";
        matchScore := Some (78, 100)%Z |}])].

Fixpoint lookup_links (table : list (string * list QuarkLink)) (k : string)
  : option (list QuarkLink) :=
  match table with
  | [] => None
  | (k', v) :: rest => if String.eqb k' k then Some v else lookup_links rest k
  end.

Definition nonempty (s : option string) : option string :=
  match s with
  | Some x => if String.eqb x "" then None else Some x
  | None => None
  end.

(** [mockQuarkLinks[tmdbId]], when it is truthy. *)
Definition read_links (table : list (string * list QuarkLink)) (k : string)
  : option (Returned (list QuarkLink)) :=
  match lookup_links table k with
  | Some links => Some (Value links)
  | None =>
      if bool_decide (k ∈ object_prototype_members) then Some (PrototypeMember k)
      else None
  end.

Definition getMockQuarkLinks (tmdbId query : option string) : Returned (list QuarkLink) :=
  match
    match nonempty tmdbId with
    | Some t => read_links mockQuarkLinks t
    | None => None
    end
  with
  | Some found => found
  | None =>
      match nonempty query with
      | Some q =>
          Value
            [{| link_id := "q-search-1";
                link_title := "Search result for " +:+ q;
                shareUrl := "https://pan.quark.cn/s/search-placeholder";
                quality := Some "1080p"; size_label := Some "5.9 GB";
                matchScore := Some (71, 100)%Z |}]
      | None => Value []
      end
  end.

End Mock.

(** ** client.ts: errors, events and the monad of asynchronous calls *)

Record ApiError := {
  err_message : string;
  err_status : Z;
  err_payload : option JsVal;
  err_requestId : option string
}.

(** What a [catch] clause can receive: an [ApiError] (the only class this
    module throws itself) or anything else (TypeError, AbortError,
    SyntaxError, ...), for which [instanceof ApiError] is false. *)
Inductive Thrown :=
| ThrowApiError (e : ApiError)
| ThrowOther (reason : string).

Inductive Method := GET | POST.

Record FetchRequest := {
  req_url : string;
  req_method : Method;
  req_headers : list (string * string);   (* a later entry overrides an earlier one *)
  req_body : option JsVal;
  req_timeoutMs : Z
}.

Inductive Event :=
| EvFetch (attempt : Z) (r : FetchRequest)
| EvSleep (ms : Z).

(** Reading a response body may fail (invalid JSON, body already used). *)
Inductive BodyRead (A : Type) :=
| ReadOk (a : A)
| ReadThrows (reason : string).
Arguments ReadOk {A} _.
Arguments ReadThrows {A} _.

(** A response with [response.ok] true carries the body the caller casts to
    [T]; one with [response.ok] false carries its status, the
    [x-request-id] header and the two ways of reading the error payload. *)
Inductive Response (T : Type) :=
| OkResponse (json : BodyRead T)
| ErrorResponse (status : Z) (requestId : option string)
    (json : BodyRead JsVal) (text : BodyRead string).
Arguments OkResponse {T} _.
Arguments ErrorResponse {T} _ _ _ _.

(** [fetchWithTimeout] either rejects (network failure, or the abort fired
    by the timeout) or resolves to a response. *)
Inductive FetchOutcome (T : Type) :=
| FetchRejected (reason : string)
| FetchResponse (r : Response T).
Arguments FetchRejected {T} _.
Arguments FetchResponse {T} _.

(** The network seen by one [requestJson] call: the outcome of each of its
    fetches, by attempt number. *)
Definition Network (T : Type) := nat → FetchOutcome T.

Record World := {
  mockTasks : gmap string TaskRecord;
  trace : list Event
}.

Definition M (A : Type) : Type := World → (Thrown + A) * World.

Definition ret {A} (a : A) : M A := λ w, (inr a, w).

Definition throw {A} (e : Thrown) : M A := λ w, (inl e, w).

Definition bind {A B} (m : M A) (k : A → M B) : M B :=
  λ w, match m w with
       | (inr a, w') => k a w'
       | (inl e, w') => (inl e, w')
       end.

(** [try { body } catch (error) { handler }] *)
Definition try_catch {A} (body : M A) (handler : Thrown → M A) : M A :=
  λ w, match body w with
       | (inr a, w') => (inr a, w')
       | (inl e, w') => handler e w'
       end.

Definition emit (e : Event) : M unit :=
  λ w, (inr tt, {| mockTasks := mockTasks w; trace := trace w ++ [e] |}).

Definition lift {A} (r : Thrown + A) : M A := λ w, (r, w).

#[global] Instance M_ret : MRet M := @ret.
#[global] Instance M_bind : MBind M := λ A B k m, bind m k.

(** ** client.ts: configuration *)

Record ApiClientOptions := {
  baseUrl : string;
  apiBaseUrl : string;
  useMock : bool;
  timeoutMs : Z;
  retry : RetryOptions
}.

Definition DEFAULT_TIMEOUT_MS : Z := 10000.
Definition DEFAULT_RETRY : RetryOptions := {| retries := 1; backoffMs := 500 |}.

Definition ends_with (suffix s : string) : bool :=
  let n := String.length s in
  let m := String.length suffix in
  (m <=? n)%nat && String.eqb (String.substring (n - m) m s) suffix.

(** [rawBaseUrl.replace(/\/$/, "")] *)
Definition strip_trailing_slash (s : string) : string :=
  if ends_with "/" s then String.substring 0 (String.length s - 1) s else s.

(** The module-level constants, from the value of the environment variable
    ([""] when neither variable is set). *)
Definition getApiClientConfig (rawBaseUrl : string) : ApiClientOptions :=
  let baseUrl := strip_trailing_slash rawBaseUrl in
  let useMock := (String.length baseUrl =? 0)%nat || String.eqb baseUrl "mock" in
  {| baseUrl := baseUrl;
     apiBaseUrl :=
       if useMock then ""
       else if ends_with "/api/v1" baseUrl then baseUrl
       else baseUrl +:+ "/api/v1";
     useMock := useMock;
     timeoutMs := DEFAULT_TIMEOUT_MS;
     retry := DEFAULT_RETRY |}.

Record RequestOptions := {
  opt_method : option Method;
  opt_body : option JsVal;
  opt_query : option (list (string * option string));
  opt_timeoutMs : option Z;
  opt_retry : option RetryOptions;
  opt_headers : option (list (string * string))
}.

Definition no_options : RequestOptions :=
  {| opt_method := None; opt_body := None; opt_query := None;
     opt_timeoutMs := None; opt_retry := None; opt_headers := None |}.

Definition ok {T} (d : T) (meta : option ApiMeta) : ApiResult T :=
  {| res_ok := true; res_data := Some d; res_error := None; res_meta := meta |}.

Definition fail {T} (msg : string) (st : option Z) (cd : option string)
    (rid : option string) : ApiResult T :=
  {| res_ok := false; res_data := None;
     res_error := Some {| message := msg; status := st; code := cd; requestId := rid |};
     res_meta := None |}.

Section Client.

(** [URLSearchParams] percent-encoding of a key or a value: a browser
    built-in, taken as given. *)
Variable form_encode : string → string.

Variable cfg : ApiClientOptions.

Definition buildQuery (params : option (list (string * option string))) : string :=
  match params with
  | None => ""
  | Some ps =>
      let entries := omap (λ kv, match kv.2 with Some v => Some (kv.1, v) | None => None end) ps in
      match entries with
      | [] => ""
      | _ =>
          let queryString :=
            String.concat "&" (map (λ kv, form_encode kv.1 +:+ "=" +:+ form_encode kv.2) entries) in
          if String.eqb queryString "" then "" else "?" +:+ queryString
      end
  end.

Definition sleep (ms : Z) : M unit := emit (EvSleep ms).

Section Request.

Context {T : Type}.
Variable net : Network T.

(** [attempt] selects the outcome in [net]. The timer is not modelled: a
    timeout is a rejected fetch. *)
Definition fetchWithTimeout (attempt : Z) (r : FetchRequest) : M (FetchOutcome T) :=
  emit (EvFetch attempt r);; ret (net (Z.to_nat attempt)).

(** The body of the [try] block once the fetch has settled. *)
Definition readResponse (out : FetchOutcome T) : Thrown + T :=
  match out with
  | FetchRejected reason => inl (ThrowOther reason)
  | FetchResponse (ErrorResponse st rid json text) =>
      match json with
      | ReadOk payload =>
          inl (ThrowApiError
                 {| err_message := "Request failed with status " +:+ pretty st;
                    err_status := st; err_payload := Some payload;
                    err_requestId := rid |})
      | ReadThrows _ =>
          match text with
          | ReadOk payload =>
              inl (ThrowApiError
                     {| err_message := "Request failed with status " +:+ pretty st;
                        err_status := st; err_payload := Some (JStr payload);
                        err_requestId := rid |})
          | ReadThrows reason => inl (ThrowOther reason)
          end
      end
  | FetchResponse (OkResponse json) =>
      match json with
      | ReadOk v => inr v
      | ReadThrows reason => inl (ThrowOther reason)
      end
  end.

(** The [for] loop of [requestJson]: [remaining] counts the values of
    [attempt] still to run, [attempt <= retry.retries] holding exactly while
    it is positive. *)
Fixpoint requestJson_loop (r : FetchRequest) (rt : RetryOptions)
    (remaining : nat) (attempt : Z) : M T :=
  match remaining with
  | O => throw (ThrowApiError {| err_message := "Request failed"; err_status := 500;
                                 err_payload := None; err_requestId := None |})
  | S rest =>
      try_catch
        (out ← fetchWithTimeout attempt r; lift (readResponse out))
        (λ error,
           if (attempt >=? retries rt)%Z then throw error
           else sleep (backoffMs rt * (attempt + 1));;
                requestJson_loop r rt rest (attempt + 1)%Z)
  end.

Definition requestJson (path : string) (options : RequestOptions) : M T :=
  let url := apiBaseUrl cfg +:+ path +:+ buildQuery (opt_query options) in
  let timeout := default DEFAULT_TIMEOUT_MS (opt_timeoutMs options) in
  let rt := default DEFAULT_RETRY (opt_retry options) in
  let r := {| req_url := url;
              req_method := default GET (opt_method options);
              req_headers := ("Content-Type", "application/json")
                               :: default [] (opt_headers options);
              req_body := match opt_body options with
                          | Some b => if truthy b then Some b else None
                          | None => None
                          end;
              req_timeoutMs := timeout |} in
  requestJson_loop r rt (Z.to_nat (retries rt + 1)) 0%Z.

End Request.

(** The clock and the random source, as read by one call. *)
Record Env := {
  now : Z;                (* Date.now() *)
  isoNow : string;        (* new Date().toISOString() *)
  randomSuffix : string   (* Math.random().toString(36).slice(2, 7) *)
}.

Definition buildMockWarning (action : string) : string :=
  if useMock cfg then "API_BASE not configured; using mock for " +:+ action +:+ "."
  else "Mock in use for " +:+ action +:+ ".".

(** [array.forEach((x, index) => ...)] over a state threaded by the callback. *)
Fixpoint forEach_from {A St : Type} (f : A → nat → St → St) (i : nat)
    (l : list A) (acc : St) : St :=
  match l with
  | [] => acc
  | x :: rest => forEach_from f (S i) rest (f x i acc)
  end.

Definition forEach {A St : Type} (f : A → nat → St → St) (l : list A) (acc : St) : St :=
  forEach_from f 0 l acc.

Definition push {A : Type} (x : A) (l : list A) : list A := l ++ [x].

Definition searchLinkItems (response : BackendResourceSearchResponse) : list LinkItem :=
  forEach (λ group _ links,
    forEach (λ item itemIndex links,
      let title := or_str (item_title item) (or_str (content item) "Untitled") in
      let baseId := or_str (item_id item)
                      (or_str (messageId item)
                         (group_id group +:+ "-" +:+ pretty itemIndex)) in
      forEach (λ link linkIndex links,
        push {| link_id := baseId +:+ "-" +:+ pretty linkIndex;
                link_title := title;
                shareUrl := link;
                quality := None; size_label := None; matchScore := None |} links)
        (default [] (cloudLinks item)) links)
      (group_list group) links)
    (data response) [].

(** [params.query ?? params.tmdbId ?? ""] *)
Definition search_keyword (params : QuarkSearchParams) : string :=
  match qs_query params with
  | Some q => q
  | None => default "" (qs_tmdbId params)
  end.

(** The [await requestJson(...)] of [searchQuarkLinks]. *)
Definition search_call (net : Network BackendResourceSearchResponse) (keyword : string)
  : M BackendResourceSearchResponse :=
  requestJson net "/resources/search"
    {| opt_method := None; opt_body := None;
       opt_query := Some [("keyword", Some keyword)];
       opt_timeoutMs := None; opt_retry := None; opt_headers := None |}.

Definition searchQuarkLinks (net : Network BackendResourceSearchResponse)
    (params : QuarkSearchParams) : M (Returned (list LinkItem)) :=
  if useMock cfg then
    ret (Mock.getMockQuarkLinks (qs_tmdbId params) (qs_query params))
  else
    let keyword := search_keyword params in
    if String.eqb keyword "" then ret (Value [])
    else
      response ← search_call net keyword;
      ret (Value (searchLinkItems response)).

(** The common [catch] clause of the three wrappers. *)
Definition catch_as_fail {T} (fallback : string) (error : Thrown) : M (ApiResult T) :=
  match error with
  | ThrowApiError e =>
      ret (fail (err_message e) (Some (err_status e)) None (err_requestId e))
  | ThrowOther _ => ret (fail fallback None None None)
  end.

Definition mock_meta (action : string) : option ApiMeta :=
  Some {| source := SourceMock; warning := Some (buildMockWarning action) |}.

(** The [await requestJson(...)] of [saveVirtualLink]. *)
Definition saveVirtualLink_call (net : Network JsVal) (params : SaveVirtualLinkParams)
  : M JsVal :=
  requestJson net ("/media/" +:+ sv_tmdbId params +:+ "/links/virtual")
    {| opt_method := Some POST; opt_body := Some (SaveVirtualLinkParams_obj params);
       opt_query := None; opt_timeoutMs := None; opt_retry := None;
       opt_headers := None |}.

Definition saveVirtualLink (env : Env) (net : Network JsVal)
    (params : SaveVirtualLinkParams) : M (ApiResult JsVal) :=
  if useMock cfg then
    ret (ok (JObj [("status", JStr (ResourceStatus_str VIRTUAL));
                   ("savedAt", JStr (isoNow env))])
            (mock_meta "saveVirtualLink"))
  else
    try_catch
      (d ← saveVirtualLink_call net params;
       ret (ok d (Some {| source := SourceBackend; warning := None |})))
      (catch_as_fail "Failed to save virtual link").

Definition mockTasks_set (k : string) (r : TaskRecord) : M unit :=
  λ w, (inr tt, {| mockTasks := <[k := r]> (mockTasks w); trace := trace w |}).

Definition mockTasks_get (k : string) : M (option TaskRecord) :=
  λ w, (inr (mockTasks w !! k), w).

Definition newTaskId (env : Env) : string :=
  "task_" +:+ pretty (now env) +:+ "_" +:+ randomSuffix env.

(** The [await requestJson(...)] of [triggerJitProvision]. *)
Definition triggerJitProvision_call (net : Network JsVal)
    (params : TriggerJitProvisionParams) : M JsVal :=
  requestJson net ("/media/" +:+ jp_tmdbId params +:+ "/provision")
    {| opt_method := Some POST; opt_body := Some (TriggerJitProvisionParams_obj params);
       opt_query := None; opt_timeoutMs := None; opt_retry := None;
       opt_headers := None |}.

(** The [record] literal of the mock branch. *)
Definition mock_task (env : Env) (params : TriggerJitProvisionParams) : TaskRecord :=
  {| taskId := newTaskId env; task_status := processing;
     tmdbId := jp_tmdbId params; linkId := Some (jp_linkId params);
     updatedAt := isoNow env;
     progress := None; resultWebdavUrl := None; errorMessage := None |}.

Definition triggerJitProvision (env : Env) (net : Network JsVal)
    (params : TriggerJitProvisionParams) : M (ApiResult JsVal) :=
  if useMock cfg then
    let record := mock_task env params in
    mockTasks_set (taskId record) record;;
    ret (ok (TaskRecord_obj record) (mock_meta "triggerJitProvision"))
  else
    try_catch
      (d ← triggerJitProvision_call net params;
       match get d "taskId" with
       | None => throw (ThrowOther "TypeError: cannot read properties of null or undefined")
       | Some tid =>
           if negb (truthy tid) then
             throw (ThrowApiError {| err_message := "Missing taskId in response";
                                     err_status := 500; err_payload := Some d;
                                     err_requestId := None |})
           else ret (ok d (Some {| source := SourceBackend; warning := None |}))
       end)
      (catch_as_fail "Failed to trigger JIT provisioning").

(** The [await requestJson(...)] of [getTaskStatus]. *)
Definition getTaskStatus_call (net : Network JsVal) (taskId : string) : M JsVal :=
  requestJson net ("/tasks/" +:+ taskId) no_options.

Definition getTaskStatus (net : Network JsVal) (taskId : string) : M (ApiResult JsVal) :=
  if useMock cfg then
    record ← mockTasks_get taskId;
    match record with
    | None => ret (fail "Task not found" (Some 404%Z) (Some "TASK_NOT_FOUND") None)
    | Some r => ret (ok (TaskRecord_obj r) (Some {| source := SourceMock; warning := None |}))
    end
  else
    try_catch
      (d ← getTaskStatus_call net taskId;
       ret (ok d (Some {| source := SourceBackend; warning := None |})))
      (catch_as_fail "Failed to fetch task status").

End Client.

(** ** app/movie/[tmdbId]/page.tsx *)

Definition mapTaskStatus (st : string) : ResourceStatus :=
  if String.eqb st "pending" then PROVISIONING
  else if String.eqb st "processing" then PROVISIONING
  else if String.eqb st "completed" then MATERIALIZED
  else if String.eqb st "failed" then FAILED
  else PROVISIONING.

(** [mapTaskStatus(record.status)] on a run-time value: the [switch] compares
    with [===], so a value that is not a string reaches [default]. *)
Definition mapTaskStatus_of (v : JsVal) : ResourceStatus :=
  match v with
  | JStr st => mapTaskStatus st
  | _ => PROVISIONING
  end.

(** [v === "literal"] *)
Definition is_str (v : JsVal) (lit : string) : bool :=
  match v with
  | JStr st => String.eqb st lit
  | _ => false
  end.

Inductive NoticeType := success | error | info.

Record Notice := {
  notice_type : NoticeType;
  notice_message : JsVal
}.

Record ActiveTask := { at_linkId : string }.

(** [Record<string, { linkId: string }>]: the own properties in
    [Object.keys] order. *)
Definition TaskTable := list (string * ActiveTask).

Definition keys (t : TaskTable) : list string := fst <$> t.

Fixpoint lookup_task (t : TaskTable) (k : string) : option ActiveTask :=
  match t with
  | [] => None
  | (k', v) :: rest => if String.eqb k' k then Some v else lookup_task rest k
  end.

(** [delete table[k]] *)
Definition delete_task (k : string) (t : TaskTable) : TaskTable :=
  filter (λ kv, negb (String.eqb kv.1 k) = true) t.

Definition NOTICE_TIMEOUT_MS : Z := 2800.

Record PageState := {
  notice : option Notice;
  linkStatus : gmap string ResourceStatus;
  activeTasks : TaskTable
}.

(** The locals of one [pollTasks] run, with the calls it makes to
    [setNoticeWithTimeout] and to [mutate] in order. *)
Record PollLocals := {
  updates : gmap string ResourceStatus;
  tasksChanged : bool;
  nextTasks : TaskTable;
  notices : list Notice;
  mutations : nat
}.

Section Poll.

Variable useMock_cfg : bool.
Variable active : TaskTable.

Definition drop_task (taskId : string) (l : PollLocals) : PollLocals :=
  {| updates := updates l; tasksChanged := true;
     nextTasks := delete_task taskId (nextTasks l);
     notices := notices l; mutations := mutations l |}.

Definition set_update (linkId : string) (st : ResourceStatus) (l : PollLocals) : PollLocals :=
  {| updates := <[linkId := st]> (updates l); tasksChanged := tasksChanged l;
     nextTasks := nextTasks l; notices := notices l; mutations := mutations l |}.

Definition setNoticeWithTimeout (n : Notice) (l : PollLocals) : PollLocals :=
  {| updates := updates l; tasksChanged := tasksChanged l;
     nextTasks := nextTasks l; notices := notices l ++ [n];
     mutations := mutations l |}.

Definition mutate (l : PollLocals) : PollLocals :=
  {| updates := updates l; tasksChanged := tasksChanged l;
     nextTasks := nextTasks l; notices := notices l;
     mutations := S (mutations l) |}.

Definition result_unusable (result : ApiResult JsVal) : bool :=
  negb (res_ok result) ||
  match res_data result with
  | Some d => negb (truthy d)
  | None => true
  end.

(** The callback of [results.forEach]. *)
Definition pollResult (entry : string * ApiResult JsVal) (l : PollLocals) : PollLocals :=
  let '(taskId, result) := entry in
  match
    match lookup_task active taskId with
    | Some t => if String.eqb (at_linkId t) "" then None else Some (at_linkId t)
    | None => None
    end
  with
  | None => drop_task taskId l
  | Some linkId =>
      if result_unusable result then
        setNoticeWithTimeout
          {| notice_type := error;
             notice_message :=
               JStr (or_str (message <$> res_error result) "Task status unavailable.") |}
          (drop_task taskId (set_update linkId FAILED l))
      else
        let d := default JUndefined (res_data result) in
        let mappedStatus := mapTaskStatus_of (prop d "status") in
        let l := set_update linkId mappedStatus l in
        if is_str (prop d "status") "completed" then
          let l := drop_task taskId l in
          let l := if negb useMock_cfg then mutate l else l in
          setNoticeWithTimeout
            {| notice_type := success; notice_message := JStr "Provisioning completed." |} l
        else if is_str (prop d "status") "failed" then
          setNoticeWithTimeout
            {| notice_type := error;
               notice_message := or (prop d "errorMessage") (JStr "Provisioning failed.") |}
            (drop_task taskId l)
        else l
  end.

Definition poll_init : PollLocals :=
  {| updates := ∅; tasksChanged := false; nextTasks := active;
     notices := []; mutations := 0 |}.

Definition pollResults (results : list (string * ApiResult JsVal)) (l : PollLocals) : PollLocals :=
  foldl (λ acc entry, pollResult entry acc) l results.

(** One run of [pollTasks]: [statusOf] is what [getTaskStatus] resolves to
    for each task, [cancelled] the flag read after [Promise.all]. [None] is
    the early [return]. *)
Definition pollTasks (statusOf : string → ApiResult JsVal) (cancelled : bool)
  : option PollLocals :=
  let taskIds := keys active in
  let results := (λ taskId, (taskId, statusOf taskId)) <$> taskIds in
  if cancelled then None
  else Some (pollResults results poll_init).

End Poll.


(** The state updates of a [pollTasks] run, as React commits them. *)
Definition commitPoll (l : PollLocals) (st : PageState) : PageState :=
  {| notice := match last (notices l) with
               | Some n => Some n
               | None => notice st
               end;
     linkStatus := if bool_decide (updates l = ∅) then linkStatus st
                   else updates l ∪ linkStatus st;
     activeTasks := if tasksChanged l then nextTasks l else activeTasks st |}.

(** A result on which [pollTasks] stops following the task. *)
Definition terminal_result (result : ApiResult JsVal) : bool :=
  result_unusable result ||
  (let d := default JUndefined (res_data result) in
   is_str (prop d "status") "completed" || is_str (prop d "status") "failed").

(** ** Notions used to state the properties *)

(** The events of [n] failed attempts starting at [attempt], each followed by
    its wait. *)
Fixpoint retry_trace (r : FetchRequest) (rt : RetryOptions) (n : nat) (attempt : Z)
  : list Event :=
  match n with
  | O => []
  | S n' =>
      EvFetch attempt r :: EvSleep (backoffMs rt * (attempt + 1))
        :: retry_trace r rt n' (attempt + 1)
  end.

Definition is_fetch (e : Event) : bool :=
  match e with EvFetch _ _ => true | EvSleep _ => false end.

Definition fetch_count (t : list Event) : nat := length (filter (λ e, is_fetch e = true) t).

Definition waits (t : list Event) : list Z :=
  omap (λ e, match e with EvSleep ms => Some ms | EvFetch _ _ => None end) t.

(** The request [requestJson] sends for a path and options. *)
Definition request_of (form_encode : string → string) (cfg : ApiClientOptions)
    (path : string) (options : RequestOptions) : FetchRequest :=
  {| req_url := apiBaseUrl cfg +:+ path +:+ buildQuery form_encode (opt_query options);
     req_method := default GET (opt_method options);
     req_headers := ("Content-Type", "application/json") :: default [] (opt_headers options);
     req_body := match opt_body options with
                 | Some b => if truthy b then Some b else None
                 | None => None
                 end;
     req_timeoutMs := default DEFAULT_TIMEOUT_MS (opt_timeoutMs options) |}.

Definition with_trace (w : World) (t : list Event) : World :=
  {| mockTasks := mockTasks w; trace := trace w ++ t |}.


(** The spec's words, to compare the code with. *)
Module Spec.

(** "capped exponential backoff (base 1s, multiplier 2, max 3 attempts, max
    single wait 8s)", retrying "only transient errors". *)
Definition base_wait_ms : Z := 1000.
Definition multiplier : Z := 2.
Definition max_attempts : nat := 3.
Definition max_wait_ms : Z := 8000.

Definition backoff_wait (attempt : Z) : Z :=
  Z.min (base_wait_ms * multiplier ^ attempt) max_wait_ms.

(** Network and timeout failures are transient; a reply of the server that
    rejects the request (an auth error, an upstream rejection) is not. *)
Definition transient (e : Thrown) : bool :=
  match e with
  | ThrowOther _ => true
  | ThrowApiError _ => false
  end.

Fixpoint request_loop {T} (net : Network T) (r : FetchRequest)
    (remaining : nat) (attempt : Z) : M T :=
  match remaining with
  | O => throw (ThrowOther "no attempt left")
  | S rest =>
      try_catch
        (out ← fetchWithTimeout net attempt r; lift (readResponse out))
        (λ e,
           if negb (transient e) then throw e
           else match rest with
                | O => throw e
                | S _ => sleep (backoff_wait attempt);;
                         request_loop net r rest (attempt + 1)%Z
                end)
  end.

Definition request {T} (net : Network T) (r : FetchRequest) : M T :=
  request_loop net r max_attempts 0%Z.

(** The claim on the HTTP client: under the policy the client runs with when
    its callers pass none, [requestJson] behaves as [request]. *)
Definition retry_policy_claim : Prop :=
  ∀ (T : Type) (form_encode : string → string) (cfg : ApiClientOptions)
    (net : Network T) (path : string) (options : RequestOptions) (w : World),
    opt_retry options = None →
    requestJson form_encode cfg net path options w
    = request net (request_of form_encode cfg path options) w.

(** The claim on provisioning: a second call for the same
    [{tmdbId, linkId}] returns the task of the first and adds none. *)
Definition provision_idempotent : Prop :=
  ∀ (form_encode : string → string) (cfg : ApiClientOptions) (env1 env2 : Env)
    (net1 net2 : Network JsVal) (params : TriggerJitProvisionParams) (w : World),
    useMock cfg = true →
    let '(r1, w1) := triggerJitProvision form_encode cfg env1 net1 params w in
    let '(r2, w2) := triggerJitProvision form_encode cfg env2 net2 params w1 in
    ∃ a1 a2,
      r1 = inr a1 ∧ r2 = inr a2 ∧
      (λ d, prop d "taskId") <$> res_data a1 = (λ d, prop d "taskId") <$> res_data a2 ∧
      size (mockTasks w2) = size (mockTasks w1).

(** "one LinkItem per element of each item's cloudLinks array, preserving
    group, item, and link order". *)
Definition first_of (candidates : list (option string)) (fallback : string) : string :=
  default fallback (list_find (λ s, s ≠ "") (omap id candidates) ≫= λ p, Some p.2).

Definition link_item (group : BackendResourceGroup) (itemIndex : nat)
    (item : BackendResourceItem) (linkIndex : nat) (link : string) : LinkItem :=
  {| link_id :=
       first_of [item_id item; messageId item]
         (group_id group +:+ "-" +:+ pretty itemIndex)
       +:+ "-" +:+ pretty linkIndex;
     link_title := first_of [item_title item; content item] "Untitled";
     shareUrl := link;
     quality := None; size_label := None; matchScore := None |}.

Definition flattenSearch (response : BackendResourceSearchResponse) : list LinkItem :=
  concat (map (λ group,
    concat (imap (λ itemIndex item,
      imap (link_item group itemIndex item) (default [] (cloudLinks item)))
      (group_list group)))
    (data response)).

End Spec.

Definition link_count (response : BackendResourceSearchResponse) : nat :=
  sum_list (map (λ group,
    sum_list (map (λ item, length (default [] (cloudLinks item))) (group_list group)))
    (data response)).

Definition status_names : list string := ["VIRTUAL"; "PROVISIONING"; "MATERIALIZED"; "FAILED"].

(** The notice of the ["failed"] branch of [pollTasks]. *)
Definition failure_notice (d : JsVal) : Notice :=
  {| notice_type := error;
     notice_message := or (prop d "errorMessage") (JStr "Provisioning failed.") |}.

(** [taskIds.map(async ...)] once every [getTaskStatus] has settled. *)
Definition results_of (statusOf : string → ApiResult JsVal) (taskIds : list string)
  : list (string * ApiResult JsVal) :=
  (λ taskId, (taskId, statusOf taskId)) <$> taskIds.

(** Whether the character [c] occurs in [s]. *)
Fixpoint has_char (c : Ascii.ascii) (s : string) : bool :=
  match s with
  | EmptyString => false
  | String c' s' => Ascii.eqb c' c || has_char c s'
  end.

Definition backend_meta : option ApiMeta :=
  Some {| source := SourceBackend; warning := None |}.

(** The index of the attempt that ends a [requestJson] call on [net]: the
    first one among [attempt .. attempt + n] whose [try] block does not
    throw, else the last one. *)
Fixpoint deciding_attempt {T} (net : Network T) (n : nat) (attempt : nat) : nat :=
  match n with
  | O => attempt
  | S n' =>
      match readResponse (net attempt) with
      | inr _ => attempt
      | inl _ => deciding_attempt net n' (S attempt)
      end
  end.

(** What [error instanceof ApiError] lets a wrapper report. *)
Definition reported (fallback : string) (e : Thrown) : ApiErrorShape :=
  match e with
  | ThrowApiError a =>
      {| message := err_message a; code := None; status := Some (err_status a);
         requestId := err_requestId a |}
  | ThrowOther _ =>
      {| message := fallback; code := None; status := None; requestId := None |}
  end.

(** ** The detail page as a machine *)

(** *** Own property order of [activeTasks]

    [Object.keys] lists the keys that are array indices first, in ascending
    numeric order, then the other keys in the order of their creation. *)

Definition digit_of (c : ascii) : option N :=
  let n := N_of_ascii c in
  if (48 <=? n)%N && (n <=? 57)%N then Some (n - 48)%N else None.

Fixpoint parse_digits (s : string) (acc : N) : option N :=
  match s with
  | EmptyString => Some acc
  | String c s' =>
      match digit_of c with
      | Some d => parse_digits s' (10 * acc + d)%N
      | None => None
      end
  end.

(** A canonical numeric string below 2^32 - 1. *)
Definition array_index (k : string) : option N :=
  match k with
  | EmptyString => None
  | _ =>
      match parse_digits k 0 with
      | Some n => if (n <? 4294967295)%N && String.eqb (pretty n) k then Some n else None
      | None => None
      end
  end.

Fixpoint insert_index (n : N) (k : string) (v : ActiveTask) (t : TaskTable) : TaskTable :=
  match t with
  | [] => [(k, v)]
  | (k', v') :: rest =>
      match array_index k' with
      | Some n' => if (n' <? n)%N then (k', v') :: insert_index n k v rest else (k, v) :: t
      | None => (k, v) :: t
      end
  end.

(** [{ ...table, [k]: v }] *)
Definition set_task (k : string) (v : ActiveTask) (t : TaskTable) : TaskTable :=
  if bool_decide (k ∈ keys t) then
    (λ kv : string * ActiveTask, if String.eqb kv.1 k then (kv.1, v) else kv) <$> t
  else
    match array_index k with
    | Some n => insert_index n k v t
    | None => t ++ [(k, v)]
    end.

(** *** The handler of "Watch Now", once [triggerJitProvision] has resolved.

    The busy flag of the button is left out. *)
Section Handlers.

(** The property key of a value that is not a string ([ToPropertyKey]): a
    language built-in, taken as given. *)
Variable property_key : JsVal → string.

Definition task_key (v : JsVal) : string :=
  match v with
  | JStr s => s
  | _ => property_key v
  end.

Definition result_usable (result : ApiResult JsVal) : bool :=
  res_ok result &&
  match res_data result with
  | Some d => truthy d
  | None => false
  end.

(** [result.ok && result.data], then a status to follow by polling. *)
Definition follows (result : ApiResult JsVal) : bool :=
  result_usable result &&
  (let taskRecord := default JUndefined (res_data result) in
   is_str (prop taskRecord "status") "pending"
   || is_str (prop taskRecord "status") "processing").

(** A string that is defined and not empty. *)
Definition truthy_str (s : option string) : option string :=
  match s with
  | Some x => if String.eqb x "" then None else Some x
  | None => None
  end.

(** The new state, and whether [setActiveTasks] was called. *)
Definition handleJitProvision (link : LinkItem) (result : ApiResult JsVal)
    (st : PageState) : PageState * bool :=
  if result_usable result then
    let taskRecord := default JUndefined (res_data result) in
    let nextStatus := mapTaskStatus_of (prop taskRecord "status") in
    let follow := is_str (prop taskRecord "status") "pending"
                  || is_str (prop taskRecord "status") "processing" in
    let warning := truthy_str (res_meta result ≫= warning) in
    let msg :=
      if is_str (prop taskRecord "status") "completed" then "Provisioning completed."
      else if is_str (prop taskRecord "status") "failed" then "Provisioning failed."
      else "JIT provisioning started." in
    ({| notice :=
          Some {| notice_type := match warning with Some _ => info | None => success end;
                  notice_message :=
                    JStr match warning with
                         | Some wn => msg +:+ " " +:+ wn
                         | None => msg
                         end |};
        linkStatus := <[link_id link := nextStatus]> (linkStatus st);
        activeTasks :=
          if follow then
            set_task (task_key (prop taskRecord "taskId")) {| at_linkId := link_id link |}
              (activeTasks st)
          else activeTasks st |},
     follow)
  else
    ({| notice :=
          Some {| notice_type := error;
                  notice_message :=
                    JStr (or_str (message <$> res_error result) "Provisioning failed.") |};
        linkStatus := linkStatus st;
        activeTasks := activeTasks st |},
     false).

(** *** The mounted page with its polling effect and its timers

    [mutate], the revalidation of the media detail, does not touch this
    state. *)

(** A call of [pollTasks] whose [Promise.all] has not settled. *)
Record PollCall := {
  call_effect : nat;        (* the run of the effect it belongs to *)
  call_active : TaskTable;  (* [activeTasks] in the closure of that run *)
  call_time : Z
}.

Record Detail := {
  page : PageState;
  clock : Z;                       (* ms *)
  effect : nat;                    (* the current run of the effect; earlier runs are cancelled *)
  interval : option Z;             (* when the interval timer fires next, if one is set *)
  inflight : list PollCall;
  requests : list (Z * string)     (* the calls [getTaskStatus(taskId)], with their time *)
}.

                                                      (* another handler, or the notice timer, sets the
                                                         notice or a link status *)

Variable useMock_cfg : bool.












(** The page as mounted: no link status, no active task, so the effect
    returns at once. *)
Definition mounted : Detail :=
  {| page := {| notice := None; linkStatus := ∅; activeTasks := [] |};
     clock := 0; effect := 0; interval := None; inflight := []; requests := [] |}.


End Handlers.

(** *** What one task does to a poll step *)

(** [activeTasks[taskId]?.linkId], when it is truthy. *)
Definition task_linkId (active : TaskTable) (taskId : string) : option string :=
  match lookup_task active taskId with
  | Some t => if String.eqb (at_linkId t) "" then None else Some (at_linkId t)
  | None => None
  end.

(** The notice the callback of [results.forEach] issues for an entry. *)
Definition issued_notice (active : TaskTable) (entry : string * ApiResult JsVal)
  : option Notice :=
  match task_linkId active entry.1 with
  | None => None
  | Some _ =>
      if result_unusable entry.2 then
        Some {| notice_type := error;
                notice_message :=
                  JStr (or_str (message <$> res_error entry.2) "Task status unavailable.") |}
      else
        let d := default JUndefined (res_data entry.2) in
        if is_str (prop d "status") "completed" then
          Some {| notice_type := success; notice_message := JStr "Provisioning completed." |}
        else if is_str (prop d "status") "failed" then Some (failure_notice d)
        else None
  end.

(** The link it writes in [updates], with the status. *)
Definition written_status (active : TaskTable) (entry : string * ApiResult JsVal)
  : option (string * ResourceStatus) :=
  match task_linkId active entry.1 with
  | None => None
  | Some linkId =>
      if result_unusable entry.2 then Some (linkId, FAILED)
      else Some (linkId,
                 mapTaskStatus_of (prop (default JUndefined (res_data entry.2)) "status"))
  end.

Definition written_for (link : string) (active : TaskTable)
    (entry : string * ApiResult JsVal) : option ResourceStatus :=
  match written_status active entry with
  | Some (k, s) => if String.eqb k link then Some s else None
  | None => None
  end.


(** *** Schedules *)





(** The claims on polling, as the spec words them. *)
Module Claimed.


(** "a task reporting status failed produces a user-visible error notice
    containing the task's errorMessage and marks the link FAILED, while a
    task reporting pending or processing produces no error notice and leaves
    the link visibly PROVISIONING". *)
Definition failure_surfacing : Prop :=
  ∀ (useMock_cfg : bool) (active : TaskTable) (statusOf : string → ApiResult JsVal)
    (st : PageState) (final : PollLocals) (taskId linkId : string) (d : JsVal),
    pollTasks useMock_cfg active statusOf false = Some final →
    taskId ∈ keys active →
    lookup_task active taskId = Some {| at_linkId := linkId |} →
    linkId ≠ "" →
    res_ok (statusOf taskId) = true →
    res_data (statusOf taskId) = Some d →
    truthy d = true →
    let shown := commitPoll final st in
    (prop d "status" = JStr "failed" →
       notice shown = Some (failure_notice d)
       ∧ linkStatus shown !! linkId = Some FAILED)
    ∧ (prop d "status" = JStr "pending" ∨ prop d "status" = JStr "processing" →
       linkStatus shown !! linkId = Some PROVISIONING
       ∧ ∀ n, notice shown = Some n → notice_type n = error → notice st = Some n).

End Claimed.

(** The notice of the branch of [pollTasks] for a status that could not be
    fetched. *)
Definition unavailable_notice (result : ApiResult JsVal) : Notice :=
  {| notice_type := error;
     notice_message :=
       JStr (or_str (message <$> res_error result) "Task status unavailable.") |}.

(** ** Sample inputs *)

Definition backend_cfg : ApiClientOptions := getApiClientConfig "http://backend:8000/".

Definition mock_cfg : ApiClientOptions := getApiClientConfig "".

Definition empty_world : World := {| mockTasks := ∅; trace := [] |}.

(** A backend that answers 401 to the first attempt and 200 to the next. *)
Definition unauthorized_then_ok : Network JsVal := λ k,
  match k with
  | O => FetchResponse
           (ErrorResponse 401 None (ReadOk (JObj [("detail", JStr "unauthorized")]))
              (ReadOk ""))
  | _ => FetchResponse
           (OkResponse (ReadOk (JObj [("taskId", JStr "t-1"); ("status", JStr "pending")])))
  end.

Definition always_rejected : Network JsVal := λ _, FetchRejected "network down".

(** Two clicks on the same link, 250 ms apart. *)
Definition click1 : Env :=
  {| now := 1700000000000; isoNow := "2023-11-14T22:13:20.000Z"; randomSuffix := "k3x9q" |}.

Definition click2 : Env :=
  {| now := 1700000000250; isoNow := "2023-11-14T22:13:20.250Z"; randomSuffix := "k3x9q" |}.

Definition same_link : TriggerJitProvisionParams :=
  {| jp_tmdbId := "872585"; jp_linkId := "q1";
     jp_shareUrl := Some "https://pan.quark.cn/s/placeholder-1" |}.

Definition reply_without_taskId : Network JsVal := λ _,
  FetchResponse
    (OkResponse (ReadOk (JObj [("status", JStr "pending"); ("tmdbId", JStr "872585")]))).

Definition three_retries : RequestOptions :=
  {| opt_method := None; opt_body := None; opt_query := None; opt_timeoutMs := None;
     opt_retry := Some {| retries := 3; backoffMs := 1000 |}; opt_headers := None |}.

Definition no_attempt : RequestOptions :=
  {| opt_method := None; opt_body := None; opt_query := None; opt_timeoutMs := None;
     opt_retry := Some {| retries := -1; backoffMs := 500 |}; opt_headers := None |}.

Definition save_q1 : SaveVirtualLinkParams :=
  {| sv_tmdbId := "872585"; sv_linkId := "q1"; sv_title := "Signal Drift 4K Pack";
     sv_shareUrl := "https://pan.quark.cn/s/placeholder-1" |}.

Definition one_task : TaskTable := [("task_1700000000000_k3x9q", {| at_linkId := "q1" |})].

Definition page_polling : PageState :=
  {| notice := None; linkStatus := {["q1" := PROVISIONING]}; activeTasks := one_task |}.

Definition task_failed : JsVal :=
  JObj [("taskId", JStr "task_1700000000000_k3x9q"); ("status", JStr "failed");
        ("tmdbId", JStr "872585"); ("linkId", JStr "q1");
        ("updatedAt", JStr "2023-11-14T22:14:00.000Z");
        ("errorMessage", JStr "Share link expired")].


Definition search_reply : BackendResourceSearchResponse :=
  {| data :=
       [{| group_id := "chan-a";
           group_list :=
             [{| item_id := None; messageId := Some "m42"; item_title := Some "Signal Drift";
                 content := None;
                 cloudLinks := Some ["https://pan.quark.cn/s/a1"; "https://pan.quark.cn/s/a2"] |};
              {| item_id := None; messageId := None; item_title := None;
                 content := Some "untitled post"; cloudLinks := None |};
              {| item_id := None; messageId := None; item_title := None; content := None;
                 cloudLinks := Some ["https://pan.quark.cn/s/a3"] |}] |}] |}.

Definition search_net : Network BackendResourceSearchResponse :=
  λ _, FetchResponse (OkResponse (ReadOk search_reply)).

Definition search_params : QuarkSearchParams :=
  {| qs_tmdbId := Some "872585"; qs_query := None |}.

(** Sample: two clicks on the same link, the first task failed, the second
    completed. *)
Definition two_tasks_one_link : TaskTable :=
  [("task_A", {| at_linkId := "q1" |}); ("task_B", {| at_linkId := "q1" |})].

Definition task_completed : JsVal :=
  JObj [("taskId", JStr "task_B"); ("status", JStr "completed");
        ("tmdbId", JStr "872585"); ("linkId", JStr "q1");
        ("updatedAt", JStr "2023-11-14T22:14:00.000Z")].

Definition failed_then_completed : string → ApiResult JsVal :=
  λ taskId, if String.eqb taskId "task_A" then ok task_failed backend_meta
            else ok task_completed backend_meta.

(** Sample: a task still processing on one link, then a failed one on
    another. *)
Definition two_tasks : TaskTable :=
  [("task_P", {| at_linkId := "q2" |}); ("task_A", {| at_linkId := "q1" |})].

Definition task_processing : JsVal :=
  JObj [("taskId", JStr "task_P"); ("status", JStr "processing");
        ("tmdbId", JStr "872585"); ("linkId", JStr "q2");
        ("updatedAt", JStr "2023-11-14T22:14:00.000Z")].

Definition processing_and_failed : string → ApiResult JsVal :=
  λ taskId, if String.eqb taskId "task_A" then ok task_failed backend_meta
            else ok task_processing backend_meta.

Definition link_q1 : LinkItem :=
  {| link_id := "q1"; link_title := "Signal Drift 4K Pack";
     shareUrl := "https://pan.quark.cn/s/placeholder-1";
     quality := None; size_label := None; matchScore := None |}.


(** What [triggerJitProvision] resolves to for a task the backend has
    started. *)
Definition provisioned (taskId linkId : string) : ApiResult JsVal :=
  ok (JObj [("taskId", JStr taskId); ("status", JStr "processing");
            ("tmdbId", JStr "872585"); ("linkId", JStr linkId);
            ("updatedAt", JStr "2023-11-14T22:13:20.000Z")])
     backend_meta.




Definition no_key : JsVal → string := λ _, "undefined".

(** A backend that answers 404, with a request id and a body that is not
    JSON, to every attempt. *)
Definition not_found : Network JsVal := λ _,
  FetchResponse
    (ErrorResponse 404 (Some "req-7") (ReadThrows "SyntaxError: Unexpected token N")
       (ReadOk "Not Found")).

(** * Properties *)

(** ** The monad *)

Ltac unfold_m :=
  unfold fetchWithTimeout, sleep, emit, lift, throw, try_catch, mbind, mret,
    M_bind, M_ret, bind, ret in *.

Lemma with_trace_nil w : with_trace w [] = w.
Proof. destruct w; unfold with_trace; cbn. by rewrite app_nil_r. Qed.

Lemma with_trace_app w t1 t2 : with_trace (with_trace w t1) t2 = with_trace w (t1 ++ t2).
Proof. unfold with_trace; cbn. by rewrite app_assoc. Qed.

(** ** [requestJson]: the retry loop *)

Section RequestFacts.
Context {T : Type}.
Variable net : Network T.
Variable r : FetchRequest.
Variable rt : RetryOptions.

Lemma loop_attempt_fails remaining attempt w e :
  readResponse (net (Z.to_nat attempt)) = inl e →
  requestJson_loop net r rt (S remaining) attempt w =
    if (attempt >=? retries rt)%Z then (inl e, with_trace w [EvFetch attempt r])
    else requestJson_loop net r rt remaining (attempt + 1)
           (with_trace w [EvFetch attempt r; EvSleep (backoffMs rt * (attempt + 1))]).
Proof.
  intros He. cbn [requestJson_loop]. unfold_m. rewrite He.
  destruct (attempt >=? retries rt)%Z; [done|].
  f_equal. unfold with_trace; cbn. by rewrite <- app_assoc.
Qed.

Lemma loop_attempt_succeeds remaining attempt w v :
  readResponse (net (Z.to_nat attempt)) = inr v →
  requestJson_loop net r rt (S remaining) attempt w
  = (inr v, with_trace w [EvFetch attempt r]).
Proof. intros He. cbn [requestJson_loop]. unfold_m. by rewrite He. Qed.

(** [n] failing attempts below the retry budget are each followed by their
    wait and by the next attempt. *)
Lemma loop_failing_prefix n : ∀ remaining attempt w,
  (0 ≤ attempt)%Z →
  (attempt + Z.of_nat n ≤ retries rt)%Z →
  (∀ i, (i < n)%nat → ∃ e, readResponse (net (Z.to_nat attempt + i)) = inl e) →
  requestJson_loop net r rt (n + remaining) attempt w =
    requestJson_loop net r rt remaining (attempt + Z.of_nat n)
      (with_trace w (retry_trace r rt n attempt)).
Proof.
  induction n as [|n IH]; intros remaining attempt w Hpos Hle Hfail.
  - cbn. by rewrite Z.add_0_r, with_trace_nil.
  - destruct (Hfail 0%nat) as [e He]; [lia|]. rewrite Nat.add_0_r in He.
    cbn [Nat.add]. rewrite (loop_attempt_fails _ _ _ e He).
    destruct (Z.geb_spec attempt (retries rt)); [exfalso; lia|].
    rewrite IH; [| lia | lia |].
    + rewrite with_trace_app. cbn [retry_trace app].
      f_equal. lia.
    + intros i Hi. destruct (Hfail (S i)) as [e' He']; [lia|].
      exists e'. rewrite <- He'.
      by replace (Z.to_nat (attempt + 1) + i)%nat with (Z.to_nat attempt + S i)%nat by lia.
Qed.
End RequestFacts.

Lemma fetch_count_app t1 t2 : fetch_count (t1 ++ t2) = (fetch_count t1 + fetch_count t2)%nat.
Proof. unfold fetch_count. by rewrite filter_app, length_app. Qed.

Lemma waits_app t1 t2 : waits (t1 ++ t2) = waits t1 ++ waits t2.
Proof. unfold waits. apply omap_app. Qed.

Lemma fetch_count_retry_trace r rt n : ∀ a, fetch_count (retry_trace r rt n a) = n.
Proof.
  induction n as [|n IH]; intros a; [done|].
  cbn [retry_trace]. change (fetch_count (?x :: ?y :: ?t)) with (S (fetch_count t)).
  by rewrite IH.
Qed.

Lemma waits_retry_trace r rt n : ∀ a,
  waits (retry_trace r rt n a)
  = map (λ i, backoffMs rt * (a + Z.of_nat i + 1))%Z (seq 0 n).
Proof.
  induction n as [|n IH]; intros a; [done|].
  cbn [retry_trace seq map].
  change (waits (?x :: EvSleep ?ms :: ?t)) with (ms :: waits t).
  rewrite IH, <- seq_shift, map_map. f_equal.
  - f_equal. lia.
  - apply map_ext. intros i. f_equal. lia.
Qed.

(** C9: [requestJson]'s retry loop is bounded and surfaces the last error.
    When every attempt fails (the fetch rejects, the response is not OK, or
    its body cannot be read), [requestJson] performs exactly
    [retry.retries + 1] fetches (2 under [DEFAULT_RETRY]), waits
    [backoffMs * (attempt + 1)] ms after each attempt but the last (500 ms
    under [DEFAULT_RETRY]), and then throws the error of the last attempt:
    no success is made up and nothing runs after it. The retry count is a
    count: [0 <= retry.retries]. *)
Theorem requestJson_bounded_retry {T} (form_encode : string → string)
    (cfg : ApiClientOptions) (net : Network T) (path : string)
    (options : RequestOptions) (w : World) (err : nat → Thrown) :
  let rt := default DEFAULT_RETRY (opt_retry options) in
  let r := request_of form_encode cfg path options in
  let last_attempt := Z.to_nat (retries rt) in
  let t := retry_trace r rt last_attempt 0 ++ [EvFetch (retries rt) r] in
  (0 ≤ retries rt)%Z →
  (∀ k, (k ≤ last_attempt)%nat → readResponse (net k) = inl (err k)) →
  requestJson form_encode cfg net path options w
    = (inl (err last_attempt), with_trace w t)
  ∧ fetch_count t = S last_attempt
  ∧ waits t = map (λ attempt, backoffMs rt * (Z.of_nat attempt + 1))%Z (seq 0 last_attempt)
  ∧ (opt_retry options = None → fetch_count t = 2%nat ∧ waits t = [500%Z]).
Proof.
  intros rt r last_attempt t Hpos Hfail.
  split; [|split; [|split]].
  - unfold requestJson. fold rt. change (requestJson_loop net _ rt) with (requestJson_loop net r rt).
    replace (Z.to_nat (retries rt + 1)) with (last_attempt + 1)%nat by (unfold last_attempt; lia).
    rewrite loop_failing_prefix; [| lia | unfold last_attempt; lia |].
    + cbn [Z.add]. rewrite Z.add_0_l.
      replace (Z.of_nat last_attempt) with (retries rt) by (unfold last_attempt; lia).
      rewrite (loop_attempt_fails _ _ _ _ _ _ (err last_attempt)).
      * destruct (Z.geb_spec (retries rt) (retries rt)); [|exfalso; lia].
        by rewrite with_trace_app.
      * rewrite <- (Hfail last_attempt); [done | lia].
    + intros i Hi. exists (err i). cbn. apply Hfail. lia.
  - unfold t. rewrite fetch_count_app, fetch_count_retry_trace.
    change (fetch_count [_]) with 1%nat. lia.
  - unfold t. rewrite waits_app, waits_retry_trace. cbn [waits omap]. rewrite app_nil_r.
    apply map_ext. intros i. f_equal. 
  - intros Hnone. unfold t, last_attempt, rt. rewrite Hnone. done.
Qed.

(** C4 (as amended): [requestJson] retries after every thrown error,
    whatever its kind: a rejected fetch, an [ApiError] for any non-OK status
    (401 and 403 included), a body that cannot be read. While the attempt
    number is below [retry.retries] it waits [backoffMs * (attempt + 1)] ms,
    a linear wait without a cap, and tries again; the first attempt that
    succeeds gives the result. *)
Theorem requestJson_retries_every_error {T} (form_encode : string → string)
    (cfg : ApiClientOptions) (net : Network T) (path : string)
    (options : RequestOptions) (w : World) (k : nat) (v : T) :
  let rt := default DEFAULT_RETRY (opt_retry options) in
  let r := request_of form_encode cfg path options in
  let t := retry_trace r rt k 0 ++ [EvFetch (Z.of_nat k) r] in
  (Z.of_nat k ≤ retries rt)%Z →
  (∀ i, (i < k)%nat → ∃ e, readResponse (net i) = inl e) →
  readResponse (net k) = inr v →
  requestJson form_encode cfg net path options w = (inr v, with_trace w t)
  ∧ fetch_count t = S k
  ∧ waits t = map (λ attempt, backoffMs rt * (Z.of_nat attempt + 1))%Z (seq 0 k).
Proof.
  intros rt r t Hle Hfail Hok.
  split; [|split].
  - unfold requestJson. fold rt. change (requestJson_loop net _ rt) with (requestJson_loop net r rt).
    replace (Z.to_nat (retries rt + 1)) with (k + S (Z.to_nat (retries rt) - k))%nat by lia.
    rewrite loop_failing_prefix; [| lia | lia | done].
    rewrite Z.add_0_l, (loop_attempt_succeeds _ _ _ _ _ _ v).
    + by rewrite with_trace_app.
    + by rewrite Nat2Z.id.
  - unfold t. rewrite fetch_count_app, fetch_count_retry_trace.
    change (fetch_count [_]) with 1%nat. lia.
  - unfold t. rewrite waits_app, waits_retry_trace. cbn [waits omap]. rewrite app_nil_r.
    apply map_ext. intros i. f_equal.
Qed.

(** C4, counterexample: a 401 reply is retried, after 500 ms, and the call
    succeeds on the second attempt; under the spec's policy the 401 ends the
    call. *)
Lemma retry_policy_claim_fails : ¬ Spec.retry_policy_claim.
Proof.
  intros H.
  specialize (H JsVal id backend_cfg unauthorized_then_ok "/tasks/t-1" no_options empty_world eq_refl).
  vm_compute in H. discriminate H.
Qed.

(** C4, witness: the 401 reply followed by a 200 reply. *)
Lemma requestJson_retries_every_error_witness :
  requestJson id backend_cfg unauthorized_then_ok "/tasks/t-1" no_options empty_world
  = (inr (JObj [("taskId", JStr "t-1"); ("status", JStr "pending")]),
     with_trace empty_world
       (retry_trace (request_of id backend_cfg "/tasks/t-1" no_options) DEFAULT_RETRY 1 0
        ++ [EvFetch 1 (request_of id backend_cfg "/tasks/t-1" no_options)])).
Proof.
  apply (requestJson_retries_every_error id backend_cfg unauthorized_then_ok
           "/tasks/t-1" no_options empty_world 1).
  - vm_compute. discriminate.
  - intros i Hi. assert (i = 0)%nat as -> by lia. vm_compute. eauto.
  - reflexivity.
Defined.

(** C9, witness: a network that is down, under the default policy. *)
Lemma requestJson_bounded_retry_witness :
  requestJson id backend_cfg always_rejected "/tasks/t-1" no_options empty_world
  = (inl (ThrowOther "network down"),
     with_trace empty_world
       [EvFetch 0 (request_of id backend_cfg "/tasks/t-1" no_options);
        EvSleep 500;
        EvFetch 1 (request_of id backend_cfg "/tasks/t-1" no_options)]).
Proof.
  apply (requestJson_bounded_retry id backend_cfg always_rejected "/tasks/t-1"
           no_options empty_world (λ _, ThrowOther "network down")).
  - vm_compute. discriminate.
  - reflexivity.
Defined.

(** With three retries of base 1000 ms the waits are 1000, 2000 and 3000 ms
    over four attempts, where the spec's policy waits 1000, 2000 and 4000 ms
    and stops at three. *)
Example requestJson_three_retries_waits :
  let '(r, w) := requestJson id backend_cfg always_rejected "/tasks/t-1"
                   three_retries empty_world in
  r = inl (ThrowOther "network down")
  ∧ fetch_count (trace w) = 4%nat
  ∧ waits (trace w) = [1000; 2000; 3000]%Z
  ∧ Spec.backoff_wait <$> [0; 1; 2; 3; 4]%Z = [1000; 2000; 4000; 8000; 8000]%Z.
Proof. vm_compute. done. Qed.

(** A negative retry count runs no attempt: the [throw] after the loop. *)
Lemma requestJson_without_attempt {T} form_encode cfg (net : Network T) path options w :
  (retries (default DEFAULT_RETRY (opt_retry options)) < 0)%Z →
  requestJson form_encode cfg net path options w
  = (inl (ThrowApiError {| err_message := "Request failed"; err_status := 500;
                           err_payload := None; err_requestId := None |}), w).
Proof.
  intros Hneg. unfold requestJson.
  by replace (Z.to_nat _) with 0%nat by lia.
Qed.

Example requestJson_without_attempt_run :
  requestJson id backend_cfg always_rejected "/tasks/t-1" no_attempt empty_world
  = (inl (ThrowApiError {| err_message := "Request failed"; err_status := 500;
                           err_payload := None; err_requestId := None |}), empty_world).
Proof. reflexivity. Qed.

(** ** The public wrappers *)

Section LoopErrors.
Context {T : Type}.
Variable net : Network T.



End LoopErrors.



(** ** [triggerJitProvision] and the mock task store *)

Lemma string_app_length (a b : string) :
  String.length (a +:+ b) = (String.length a + String.length b)%nat.
Proof.
  induction a as [|c a IH]; [done|].
  change (String c a +:+ b) with (String c (a +:+ b)).
  cbn [String.length]. by rewrite IH.
Qed.

Lemma string_app_inj_r (c a b : string) : a +:+ c = b +:+ c → a = b.
Proof.
  revert b. induction a as [|x a IH]; intros [|y b] H;
    repeat match type of H with
    | context [String ?x ?a +:+ c] =>
        change (String x a +:+ c) with (String x (a +:+ c)) in H
    | context [""%string +:+ c] => change (""%string +:+ c) with c in H
    end.
  - done.
  - apply (f_equal String.length) in H. cbn [String.length] in H.
    rewrite string_app_length in H. lia.
  - apply (f_equal String.length) in H. cbn [String.length] in H.
    rewrite string_app_length in H. lia.
  - injection H as -> H. f_equal. by apply IH.
Qed.

Lemma triggerJitProvision_mock form_encode cfg env net params w :
  useMock cfg = true →
  triggerJitProvision form_encode cfg env net params w
  = (inr (ok (TaskRecord_obj (mock_task env params)) (mock_meta cfg "triggerJitProvision")),
     {| mockTasks := <[newTaskId env := mock_task env params]> (mockTasks w);
        trace := trace w |}).
Proof. intros Hmock. unfold triggerJitProvision. rewrite Hmock. done. Qed.

Lemma pretty_N_char_not_underscore x : pretty_N_char x ≠ "_"%char.
Proof. unfold pretty_N_char. by repeat case_match. Qed.

Lemma pretty_N_go_has_char x : ∀ s,
  has_char "_"%char s = false → has_char "_"%char (pretty_N_go x s) = false.
Proof.
  induction (N.lt_wf_0 x) as [x _ IH]. intros s Hs.
  assert (x = 0 ∨ 0 < x)%N as [->|Hpos] by lia; [by rewrite pretty_N_go_0|].
  rewrite pretty_N_go_step by done. apply IH.
  - by apply N.div_lt.
  - cbn [has_char]. rewrite Hs, orb_false_r.
    apply Ascii.eqb_neq, pretty_N_char_not_underscore.
Qed.

Lemma pretty_N_has_char (x : N) : has_char "_"%char (pretty x) = false.
Proof.
  unfold pretty, pretty_N. case_decide; [done|]. by apply pretty_N_go_has_char.
Qed.

Lemma pretty_Z_has_char (x : Z) : has_char "_"%char (pretty x) = false.
Proof.
  destruct x as [|p|p]; [done| |].
  - apply (pretty_N_has_char (Npos p)).
  - change (pretty (Z.neg p)) with ("-" +:+ pretty (Npos p)).
    change ("-" +:+ pretty (N.pos p)) with (String "-" (pretty (N.pos p))).
    cbn [has_char]. by rewrite (pretty_N_has_char (Npos p)).
Qed.

(** Two strings with no ["_"], each followed by ["_"] and a rest: the first
    ["_"] tells where the rest begins. *)
Lemma app_underscore_inj (a b s1 s2 : string) :
  has_char "_"%char a = false → has_char "_"%char b = false →
  a +:+ "_" +:+ s1 = b +:+ "_" +:+ s2 → a = b ∧ s1 = s2.
Proof.
  revert b. induction a as [|x a IH]; intros [|y b] Ha Hb Heq.
  - change (String "_" s1 = String "_" s2) in Heq. by injection Heq as ->.
  - exfalso. change (String "_" s1 = String y (b +:+ "_" +:+ s2)) in Heq.
    injection Heq as <- _. cbn in Hb. done.
  - exfalso. change (String x (a +:+ "_" +:+ s1) = String "_" s2) in Heq.
    injection Heq as -> _. cbn in Ha. done.
  - change (String x (a +:+ "_" +:+ s1) = String y (b +:+ "_" +:+ s2)) in Heq.
    injection Heq as -> Heq. cbn [has_char] in Ha, Hb.
    apply orb_false_iff in Ha as [_ Ha]. apply orb_false_iff in Hb as [_ Hb].
    destruct (IH b Ha Hb Heq) as [-> ->]. done.
Qed.

Lemma newTaskId_inj env1 env2 :
  newTaskId env1 = newTaskId env2 →
  now env1 = now env2 ∧ randomSuffix env1 = randomSuffix env2.
Proof.
  unfold newTaskId. intros Heq. apply (inj (String.app "task_")) in Heq.
  apply app_underscore_inj in Heq as [Hnow Hsuf]; [|apply pretty_Z_has_char..].
  split; [by apply (inj pretty)|done].
Qed.

Section LoopStore.
Context {T : Type}.
Variable net : Network T.

Lemma requestJson_loop_mockTasks r rt remaining : ∀ attempt w res w',
  requestJson_loop net r rt remaining attempt w = (res, w') →
  mockTasks w' = mockTasks w.
Proof.
  induction remaining as [|n IH]; intros attempt w res w'.
  - cbn. unfold_m. by intros [= _ <-].
  - destruct (readResponse (net (Z.to_nat attempt))) as [err | v] eqn:Hr.
    + rewrite (loop_attempt_fails _ _ _ _ _ _ err Hr).
      destruct (attempt >=? retries rt)%Z.
      * by intros [= _ <-].
      * intros H. by apply IH in H.
    + rewrite (loop_attempt_succeeds _ _ _ _ _ _ v Hr). by intros [= _ <-].
Qed.

Lemma requestJson_mockTasks form_encode cfg path options w res w' :
  requestJson form_encode cfg net path options w = (res, w') →
  mockTasks w' = mockTasks w.
Proof. unfold requestJson. apply requestJson_loop_mockTasks. Qed.
End LoopStore.

Lemma catch_as_fail_world {T} fallback err w :
  ∃ r : ApiResult T, catch_as_fail fallback err w = (inr r, w) ∧ res_ok r = false.
Proof. destruct err; by eexists. Qed.

(** In backend mode [triggerJitProvision] stores nothing, and what it returns
    with [ok] is the backend's reply. *)
Lemma triggerJitProvision_backend form_encode cfg env net params w res w' :
  useMock cfg = false →
  triggerJitProvision form_encode cfg env net params w = (res, w') →
  mockTasks w' = mockTasks w
  ∧ ∃ a, res = inr a
         ∧ (res_ok a = true →
            ∃ d, triggerJitProvision_call form_encode cfg net params w = (inr d, w')
                 ∧ a = ok d backend_meta).
Proof.
  intros Hmock. unfold triggerJitProvision. rewrite Hmock. unfold_m.
  destruct (triggerJitProvision_call _ _ _ _ w) as [[err | d] w1] eqn:Hcall.
  - pose proof (requestJson_mockTasks _ _ _ _ _ _ _ _ Hcall) as Hstore.
    destruct (catch_as_fail_world (T:=JsVal) "Failed to trigger JIT provisioning" err w1)
      as (a & -> & Hfalse).
    intros [= <- <-]. split; [done|]. exists a. split; [done|]. by rewrite Hfalse.
  - pose proof (requestJson_mockTasks _ _ _ _ _ _ _ _ Hcall) as Hstore.
    destruct (get d "taskId") as [tid|]; [destruct (truthy tid)|]; cbn.
    + intros [= <- <-]. split; [done|]. eexists. split; [done|]. intros _. by exists d.
    + intros [= <- <-]. split; [done|]. eexists. split; [done|]. done.
    + intros [= <- <-]. split; [done|]. eexists. split; [done|]. done.
Qed.

(** C1 (as amended): [triggerJitProvision] is not idempotent. In mock mode
    every call builds a task id ["task_<Date.now()>_<random suffix>"], stores
    a new ["processing"] [TaskRecord] under it in [mockTasks] and returns it,
    without looking for a task in flight. Two successive calls with the same
    [{tmdbId, linkId}] get the same id only when both the clock reading and
    the random suffix agree; when the ids differ, as they do whenever the two
    clock readings differ, the calls return different [taskId]s and both
    tasks are in the store, which has grown by two when the ids were new to
    it. In backend mode the client stores nothing, and a result with [ok]
    carries the backend's reply as it is. *)
Theorem triggerJitProvision_mock_adds_task (form_encode : string → string)
    (cfg : ApiClientOptions) (env1 env2 : Env) (net1 net2 : Network JsVal)
    (params : TriggerJitProvisionParams) (w : World) :
  (useMock cfg = true →
   ∃ w1 w2,
     triggerJitProvision form_encode cfg env1 net1 params w
       = (inr (ok (TaskRecord_obj (mock_task env1 params))
                (mock_meta cfg "triggerJitProvision")), w1)
     ∧ triggerJitProvision form_encode cfg env2 net2 params w1
       = (inr (ok (TaskRecord_obj (mock_task env2 params))
                (mock_meta cfg "triggerJitProvision")), w2)
     ∧ mockTasks w2
       = <[newTaskId env2 := mock_task env2 params]>
           (<[newTaskId env1 := mock_task env1 params]> (mockTasks w))
     ∧ trace w2 = trace w
     ∧ prop (TaskRecord_obj (mock_task env1 params)) "taskId" = JStr (newTaskId env1)
     ∧ prop (TaskRecord_obj (mock_task env2 params)) "taskId" = JStr (newTaskId env2)
     ∧ prop (TaskRecord_obj (mock_task env2 params)) "status" = JStr "processing"
     ∧ (newTaskId env1 = newTaskId env2
        ↔ now env1 = now env2 ∧ randomSuffix env1 = randomSuffix env2)
     ∧ (now env1 ≠ now env2 → newTaskId env1 ≠ newTaskId env2)
     ∧ (newTaskId env1 ≠ newTaskId env2 →
        mockTasks w2 !! newTaskId env1 = Some (mock_task env1 params)
        ∧ mockTasks w2 !! newTaskId env2 = Some (mock_task env2 params)
        ∧ (mockTasks w !! newTaskId env1 = None → mockTasks w !! newTaskId env2 = None →
           size (mockTasks w2) = S (S (size (mockTasks w))))))
  ∧ (useMock cfg = false →
     ∀ res w',
       triggerJitProvision form_encode cfg env1 net1 params w = (res, w') →
       mockTasks w' = mockTasks w
       ∧ ∃ a, res = inr a
              ∧ (res_ok a = true →
                 ∃ d, triggerJitProvision_call form_encode cfg net1 params w = (inr d, w')
                      ∧ a = ok d backend_meta)).
Proof.
  split; [|intros Hmock res w'; by apply triggerJitProvision_backend].
  intros Hmock. eexists _, _.
  split; [by apply triggerJitProvision_mock|].
  split; [by apply triggerJitProvision_mock|].
  cbn [mockTasks trace]. do 5 (split; [done|]).
  split; [|split].
  - split; [apply newTaskId_inj|]. intros [Hnow Hsuf]. unfold newTaskId. by rewrite Hnow, Hsuf.
  - intros Hnow Heq. by apply Hnow, newTaskId_inj.
  - intros Hne. split; [|split].
    + by rewrite lookup_insert_ne, lookup_insert_eq.
    + by rewrite lookup_insert_eq.
    + intros H1 H2. rewrite map_size_insert_None.
      * by rewrite map_size_insert_None.
      * by rewrite lookup_insert_ne.
Qed.

(** C1, counterexample: two clicks on the same link 250 ms apart get the ids
    [task_1700000000000_k3x9q] and [task_1700000000250_k3x9q]. *)
Lemma provision_idempotent_fails : ¬ Spec.provision_idempotent.
Proof.
  intros H.
  specialize (H id mock_cfg click1 click2 always_rejected always_rejected same_link empty_world eq_refl).
  rewrite !triggerJitProvision_mock in H by done.
  destruct H as (a1 & a2 & [= <-] & [= <-] & Hid & _).
  vm_compute in Hid. discriminate Hid.
Qed.

(** C1, witness: the same two clicks leave two tasks in the store; with a
    backend, the store stays empty. *)
Lemma triggerJitProvision_mock_adds_task_witness :
  (∃ w1 w2,
    triggerJitProvision id mock_cfg click1 always_rejected same_link empty_world
      = (inr (ok (TaskRecord_obj (mock_task click1 same_link))
               (mock_meta mock_cfg "triggerJitProvision")), w1)
    ∧ triggerJitProvision id mock_cfg click2 always_rejected same_link w1
      = (inr (ok (TaskRecord_obj (mock_task click2 same_link))
               (mock_meta mock_cfg "triggerJitProvision")), w2)
    ∧ size (mockTasks w2) = 2%nat)
  ∧ mockTasks (triggerJitProvision id backend_cfg click1 unauthorized_then_ok same_link
                 empty_world).2 = ∅.
Proof.
  split.
  - destruct (proj1 (triggerJitProvision_mock_adds_task id mock_cfg click1 click2
                       always_rejected always_rejected same_link empty_world) eq_refl)
      as (w1 & w2 & H1 & H2 & _ & _ & _ & _ & _ & _ & Hne & Hsize).
    exists w1, w2. split; [exact H1|]. split; [exact H2|].
    apply Hsize; [apply Hne; vm_compute; discriminate | reflexivity | reflexivity].
  - destruct (triggerJitProvision id backend_cfg click1 unauthorized_then_ok same_link
                empty_world) as [res w'] eqn:Hcall.
    exact (proj1 (proj2 (triggerJitProvision_mock_adds_task id backend_cfg click1 click2
                           unauthorized_then_ok always_rejected same_link empty_world)
                    eq_refl res w' Hcall)).
Defined.

Lemma truthy_taskId tid :
  truthy tid = true → tid ≠ JUndefined ∧ tid ≠ JNull ∧ tid ≠ JStr "".
Proof. intros H. repeat split; intros ->; discriminate H. Qed.

(** C6: a successful provision response always carries a task identifier.
    Whenever [triggerJitProvision] resolves with [ok = true], its data has a
    truthy [taskId] (so neither missing nor empty); and a backend response
    whose [taskId] is missing or empty is turned into the failed result
    ["Missing taskId in response"] with status 500. *)
Theorem triggerJitProvision_ok_has_taskId (form_encode : string → string)
    (cfg : ApiClientOptions) (env : Env) (net : Network JsVal)
    (params : TriggerJitProvisionParams) (w : World) :
  (∀ r w', triggerJitProvision form_encode cfg env net params w = (inr r, w') →
     res_ok r = true →
     ∃ d tid, res_data r = Some d ∧ get d "taskId" = Some tid ∧ truthy tid = true
              ∧ tid ≠ JUndefined ∧ tid ≠ JNull ∧ tid ≠ JStr "")
  ∧ (useMock cfg = false →
     ∀ d tid w1, triggerJitProvision_call form_encode cfg net params w = (inr d, w1) →
       get d "taskId" = Some tid → truthy tid = false →
       triggerJitProvision form_encode cfg env net params w
       = (inr (fail "Missing taskId in response" (Some 500%Z) None None), w1)).
Proof.
  split.
  - intros r w'. unfold triggerJitProvision.
    destruct (useMock cfg) eqn:Hmock.
    + unfold mockTasks_set. unfold_m. intros [= <- _] _.
      eexists _, (JStr (newTaskId env)). split; [done|]. split; [done|].
      assert (truthy (JStr (newTaskId env)) = true) as Ht by done.
      split; [done|]. by apply truthy_taskId.
    + unfold_m.
      destruct (triggerJitProvision_call _ _ _ _ w) as [[err | d] w1] eqn:Hreq.
      * destruct err; cbn; unfold_m; intros [= <- _]; discriminate.
      * destruct (get d "taskId") as [tid|] eqn:Htid.
        -- destruct (truthy tid) eqn:Htruthy; cbn [negb].
           ++ intros [= <- _] _. exists d, tid. split; [done|]. split; [done|].
              split; [done|]. by apply truthy_taskId.
           ++ intros [= <- _]. discriminate.
        -- intros [= <- _]. discriminate.
  - intros Hmock d tid w1. unfold triggerJitProvision, triggerJitProvision_call.
    rewrite Hmock. unfold_m. intros -> -> ->. done.
Qed.

(** C6, witness: a 200 reply without [taskId]. *)
Lemma triggerJitProvision_ok_has_taskId_witness :
  triggerJitProvision id backend_cfg click1 reply_without_taskId same_link empty_world
  = (inr (fail "Missing taskId in response" (Some 500%Z) None None),
     with_trace empty_world
       [EvFetch 0 (request_of id backend_cfg "/media/872585/provision"
                     {| opt_method := Some POST;
                        opt_body := Some (TriggerJitProvisionParams_obj same_link);
                        opt_query := None; opt_timeoutMs := None; opt_retry := None;
                opt_headers := None |})]).
Proof.
  apply (proj2 (triggerJitProvision_ok_has_taskId id backend_cfg click1
                  reply_without_taskId same_link empty_world) eq_refl
           (JObj [("status", JStr "pending"); ("tmdbId", JStr "872585")]) JUndefined).
  - reflexivity.
  - reflexivity.
  - reflexivity.
Defined.

(** C5: VIRTUAL is the initial state. Served by the mock,
    [saveVirtualLink] resolves, for every input, to a successful result whose
    [status] is exactly ["VIRTUAL"], and no other resource status. *)
Theorem saveVirtualLink_mock_VIRTUAL (form_encode : string → string)
    (cfg : ApiClientOptions) (env : Env) (net : Network JsVal)
    (params : SaveVirtualLinkParams) (w : World) :
  useMock cfg = true →
  ∃ d,
    saveVirtualLink form_encode cfg env net params w
      = (inr (ok d (mock_meta cfg "saveVirtualLink")), w)
    ∧ prop d "status" = JStr (ResourceStatus_str VIRTUAL)
    ∧ ∀ s, prop d "status" = JStr (ResourceStatus_str s) → s = VIRTUAL.
Proof.
  intros Hmock. unfold saveVirtualLink. rewrite Hmock. unfold_m.
  eexists. split; [done|]. split; [done|].
  intros s. by destruct s.
Qed.

(** C5, witness. *)
Lemma saveVirtualLink_mock_VIRTUAL_witness :
  ∃ d,
    saveVirtualLink id mock_cfg click1 always_rejected save_q1 empty_world
      = (inr (ok d (mock_meta mock_cfg "saveVirtualLink")), empty_world)
    ∧ prop d "status" = JStr "VIRTUAL"
    ∧ ∀ s, prop d "status" = JStr (ResourceStatus_str s) → s = VIRTUAL.
Proof.
  apply (saveVirtualLink_mock_VIRTUAL id mock_cfg click1 always_rejected save_q1 empty_world).
  reflexivity.
Defined.


(** ** [searchQuarkLinks] *)

Lemma forEach_from_append {A B} (g : nat → A → list B) (f : A → nat → list B → list B) l :
  (∀ x j acc, f x j acc = acc ++ g j x) →
  ∀ i acc, forEach_from f i l acc = acc ++ concat (imap (λ j, g (i + j)%nat) l).
Proof.
  intros Hf. induction l as [|x l IH]; intros i acc; cbn.
  - by rewrite app_nil_r.
  - rewrite IH, Hf, <- app_assoc, Nat.add_0_r. do 3 f_equal.
    apply imap_ext. intros j y _. cbn. f_equal. lia.
Qed.

Lemma forEach_append {A B} (g : nat → A → list B) (f : A → nat → list B → list B) l acc :
  (∀ x j acc, f x j acc = acc ++ g j x) →
  forEach f l acc = acc ++ concat (imap g l).
Proof. intros Hf. unfold forEach. by rewrite (forEach_from_append g). Qed.

Lemma concat_imap_singleton {A B} (h : nat → A → B) (l : list A) :
  concat (imap (λ j x, [h j x]) l) = imap h l.
Proof.
  revert h. induction l as [|x l IH]; intros h; cbn; [done|]. f_equal. apply IH.
Qed.

Lemma concat_imap_const {A B} (g : A → list B) (l : list A) :
  concat (imap (λ _, g) l) = concat (map g l).
Proof. induction l as [|x l IH]; cbn; [done|]. f_equal. apply IH. Qed.

Lemma or_str_first_of a b c : or_str a (or_str b c) = Spec.first_of [a; b] c.
Proof.
  unfold or_str, Spec.first_of.
  destruct a as [a|], b as [b|]; cbn;
    repeat match goal with
    | |- context [String.eqb ?s ""] => destruct s; cbn
    end; done.
Qed.

Lemma searchLinkItems_flatten response :
  searchLinkItems response = Spec.flattenSearch response.
Proof.
  unfold searchLinkItems, Spec.flattenSearch.
  rewrite (forEach_append (λ _ group,
    concat (imap (λ itemIndex item,
      imap (Spec.link_item group itemIndex item) (default [] (cloudLinks item)))
      (group_list group)))).
  - cbn [app]. apply concat_imap_const.
  - intros group _ links.
    apply forEach_append. intros item itemIndex links'.
    rewrite (forEach_append (λ linkIndex link,
      [Spec.link_item group itemIndex item linkIndex link])).
    + by rewrite concat_imap_singleton.
    + intros link linkIndex acc. unfold push, Spec.link_item.
      by rewrite !or_str_first_of.
Qed.

Lemma length_flattenSearch response :
  length (Spec.flattenSearch response) = link_count response.
Proof.
  unfold Spec.flattenSearch, link_count.
  induction (data response) as [|group groups IH]; cbn; [done|].
  rewrite length_app, IH. f_equal.
  generalize (Spec.link_item group). intros mk.
  induction (group_list group) as [|item items IHi] in mk |- *; cbn; [done|].
  rewrite length_app, length_imap. f_equal. apply IHi.
Qed.

(** C10: [searchQuarkLinks] flattens a backend search response
    deterministically. With neither [query] nor [tmdbId] it returns the empty
    list and issues no request; on a backend response it returns one
    [LinkItem] per element of each item's [cloudLinks], in group, item and
    link order, with the title [item.title], else [item.content], else
    ["Untitled"], and the id [item.id], else [item.messageId], else
    [groupId-itemIndex], followed by [-linkIndex]. *)
Theorem searchQuarkLinks_flattens (form_encode : string → string)
    (cfg : ApiClientOptions) (net : Network BackendResourceSearchResponse)
    (params : QuarkSearchParams) (w : World) :
  (qs_query params = None → qs_tmdbId params = None →
   searchQuarkLinks form_encode cfg net params w = (inr (Value []), w))
  ∧ (∀ response,
       searchLinkItems response = Spec.flattenSearch response
       ∧ length (searchLinkItems response) = link_count response)
  ∧ (useMock cfg = false → search_keyword params ≠ "" →
     ∀ response w1,
       search_call form_encode cfg net (search_keyword params) w = (inr response, w1) →
       searchQuarkLinks form_encode cfg net params w
       = (inr (Value (Spec.flattenSearch response)), w1)).
Proof.
  split; [|split].
  - intros Hq Ht. unfold searchQuarkLinks, search_keyword. rewrite Hq, Ht.
    by destruct (useMock cfg).
  - intros response. split; [apply searchLinkItems_flatten|].
    rewrite searchLinkItems_flatten. apply length_flattenSearch.
  - intros Hmock Hkw response w1 Hcall. unfold searchQuarkLinks. rewrite Hmock.
    destruct (String.eqb_spec (search_keyword params) ""); [done|].
    unfold_m. rewrite Hcall.
    by rewrite searchLinkItems_flatten.
Qed.

Lemma string_app_nonempty_r (a b : string) : b ≠ "" → a +:+ b ≠ "".
Proof.
  intros Hb Heq. apply (f_equal String.length) in Heq.
  rewrite string_app_length in Heq. destruct b; [done|]. cbn in Heq. lia.
Qed.

(** Every link the search hands to the page has an id that is not empty. *)
Lemma flattenSearch_link_id response (link : LinkItem) :
  link ∈ Spec.flattenSearch response → link_id link ≠ "".
Proof.
  unfold Spec.flattenSearch. rewrite list_elem_of_In, in_concat.
  intros (links & Hlinks & Hin). apply in_map_iff in Hlinks as (group & <- & _).
  apply in_concat in Hin as (links & Hlinks & Hin).
  apply list_elem_of_In, elem_of_lookup_imap in Hlinks as (itemIndex & item & -> & _).
  apply list_elem_of_In, elem_of_lookup_imap in Hin as (linkIndex & url & -> & _).
  cbn [Spec.link_item link_id].
  by apply string_app_nonempty_r.
Qed.

Lemma getMockQuarkLinks_link_id tmdbId query links (link : LinkItem) :
  Mock.getMockQuarkLinks tmdbId query = Value links →
  link ∈ links → link_id link ≠ "".
Proof.
  assert (∀ ls : list LinkItem,
            Forall (λ l, link_id l ≠ "") ls → link ∈ ls → link_id link ≠ "") as Hall.
  { intros ls Hf Hin. by eapply Forall_forall in Hf. }
  assert (∀ q ls, match Mock.nonempty q with
                  | Some q' =>
                      Value
                        [{| link_id := "q-search-1";
                            link_title := "Search result for " +:+ q';
                            shareUrl := "https://pan.quark.cn/s/search-placeholder";
                            quality := Some "1080p"; size_label := Some "5.9 GB";
                            matchScore := Some (71, 100)%Z |}]
                  | None => Value []
                  end = Value ls → link ∈ ls → link_id link ≠ "") as Hquery.
  { intros q ls. destruct (Mock.nonempty q); intros [= <-]; apply Hall;
      repeat constructor; discriminate. }
  unfold Mock.getMockQuarkLinks.
  destruct (Mock.nonempty tmdbId) as [t|]; [|apply Hquery].
  unfold Mock.read_links, Mock.mockQuarkLinks. cbn [Mock.lookup_links].
  destruct (String.eqb "872585" t).
  { intros [= <-]. apply Hall. repeat constructor; discriminate. }
  destruct (String.eqb "114399" t).
  { intros [= <-]. apply Hall. repeat constructor; discriminate. }
  case_bool_decide; [discriminate|]. apply Hquery.
Qed.

Lemma searchQuarkLinks_link_id form_encode cfg net params w links w' (link : LinkItem) :
  searchQuarkLinks form_encode cfg net params w = (inr (Value links), w') →
  link ∈ links → link_id link ≠ "".
Proof.
  unfold searchQuarkLinks. destruct (useMock cfg).
  - unfold_m. intros [= Hl _]. by eapply getMockQuarkLinks_link_id.
  - destruct (String.eqb _ ""); unfold_m.
    + intros [= <- _] Hin. by apply elem_of_nil in Hin.
    + destruct (search_call _ _ _ _ w) as [[e | response] w1]; [done|].
      intros [= <- _]. rewrite searchLinkItems_flatten. apply flattenSearch_link_id.
Qed.

(** ** [mapTaskStatus] *)

(** C2: [mapTaskStatus] is total over strings: ["pending"] and
    ["processing"] give PROVISIONING, ["completed"] gives MATERIALIZED,
    ["failed"] gives FAILED, every other string gives PROVISIONING; so the
    status shown for a polled task is one of the four resource states. *)
Theorem mapTaskStatus_total :
  mapTaskStatus "pending" = PROVISIONING
  ∧ mapTaskStatus "processing" = PROVISIONING
  ∧ mapTaskStatus "completed" = MATERIALIZED
  ∧ mapTaskStatus "failed" = FAILED
  ∧ (∀ s, s ≠ "pending" → s ≠ "processing" → s ≠ "completed" → s ≠ "failed" →
       mapTaskStatus s = PROVISIONING)
  ∧ (∀ s, ∃ r, mapTaskStatus s = r ∧ ResourceStatus_str r ∈ status_names)
  ∧ (∀ v, ResourceStatus_str (mapTaskStatus_of v) ∈ status_names).
Proof.
  assert (∀ r, ResourceStatus_str r ∈ status_names) as Hall.
  { intros []; unfold status_names; cbn; set_solver. }
  repeat split; try reflexivity; [| eauto | auto].
  intros s H1 H2 H3 H4. unfold mapTaskStatus.
  repeat match goal with
  | |- context [String.eqb s ?lit] => destruct (String.eqb_spec s lit); [done|]
  end.
  done.
Qed.

(** ** The polling effect *)

Section PollFacts.
Variable useMock_cfg : bool.
Variable active : TaskTable.

Lemma keys_delete_task k t x : x ∈ keys (delete_task k t) ↔ x ∈ keys t ∧ x ≠ k.
Proof.
  unfold keys, delete_task. rewrite !list_elem_of_fmap. split.
  - intros ([k' v] & -> & Hin). apply list_elem_of_filter in Hin as [Hne Hin]. cbn in *.
    split; [by exists (k', v)|].
    intros ->. by rewrite String.eqb_refl in Hne.
  - intros [([k' v] & -> & Hin) Hne]. exists (k', v). split; [done|].
    apply list_elem_of_filter. split; [|done]. cbn in *.
    by destruct (String.eqb_spec k' k).
Qed.

Lemma pollResult_keys entry l x :
  x ∈ keys (nextTasks (pollResult useMock_cfg active entry l)) → x ∈ keys (nextTasks l).
Proof.
  destruct entry as [taskId result]. unfold pollResult.
  repeat case_match; cbn -[keys delete_task]; rewrite ?keys_delete_task; tauto.
Qed.

Lemma pollResult_changed entry l :
  tasksChanged l = true → tasksChanged (pollResult useMock_cfg active entry l) = true.
Proof.
  destruct entry as [taskId result]. unfold pollResult.
  repeat case_match; cbn; done.
Qed.

Lemma pollResult_terminal taskId result l :
  terminal_result result = true →
  (taskId ∉ keys (nextTasks (pollResult useMock_cfg active (taskId, result) l)))
  ∧ tasksChanged (pollResult useMock_cfg active (taskId, result) l) = true.
Proof.
  unfold terminal_result, pollResult. intros Hterm.
  repeat case_match; cbn -[keys delete_task]; rewrite ?keys_delete_task.
  all: try (split; [tauto|done]).
  all: exfalso.
  all: repeat match goal with H : _ = false |- _ => rewrite H in Hterm end.
  all: discriminate Hterm.
Qed.

Lemma pollResults_keys results : ∀ l x,
  x ∈ keys (nextTasks (pollResults useMock_cfg active results l)) → x ∈ keys (nextTasks l).
Proof.
  induction results as [|entry results IH]; intros l x; cbn; [done|].
  intros H. eapply pollResult_keys, IH, H.
Qed.

Lemma pollResults_changed results : ∀ l,
  tasksChanged l = true → tasksChanged (pollResults useMock_cfg active results l) = true.
Proof.
  induction results as [|entry results IH]; intros l H; cbn; [done|].
  by apply IH, pollResult_changed.
Qed.

Lemma pollResults_terminal results : ∀ l taskId result,
  (taskId, result) ∈ results → terminal_result result = true →
  (taskId ∉ keys (nextTasks (pollResults useMock_cfg active results l)))
  ∧ tasksChanged (pollResults useMock_cfg active results l) = true.
Proof.
  induction results as [|entry results IH]; intros l taskId result Hin Hterm.
  - by apply elem_of_nil in Hin.
  - apply elem_of_cons in Hin as [<- | Hin]; cbn.
    + destruct (pollResult_terminal taskId result l Hterm) as [Hnot Hch].
      split; [|by apply pollResults_changed].
      intros H. by apply Hnot, (pollResults_keys results).
    + by eapply IH.
Qed.

End PollFacts.

Section PollNotice.
Variable useMock_cfg : bool.
Variable active : TaskTable.

Lemma pollResults_app results1 results2 l :
  pollResults useMock_cfg active (results1 ++ results2) l
  = pollResults useMock_cfg active results2 (pollResults useMock_cfg active results1 l).
Proof. unfold pollResults. apply foldl_app. Qed.

Lemma commitPoll_linkStatus l st linkId s :
  updates l !! linkId = Some s → linkStatus (commitPoll l st) !! linkId = Some s.
Proof.
  intros Hup. unfold commitPoll; cbn. case_bool_decide as Hempty.
  - rewrite Hempty in Hup. by rewrite lookup_empty in Hup.
  - by apply lookup_union_Some_l.
Qed.

End PollNotice.

(** *** What a poll step commits *)

Section PollSummary.
Variable useMock_cfg : bool.
Variable active : TaskTable.

Lemma pollResult_notices entry l :
  notices (pollResult useMock_cfg active entry l)
  = notices l ++ option_list (issued_notice active entry).
Proof.
  destruct entry as [taskId result]. unfold pollResult, issued_notice, task_linkId.
  cbn [fst snd].
  repeat case_match; cbn; rewrite ?app_nil_r; try done.
  all: by destruct useMock_cfg.
Qed.

Lemma pollResults_notices results : ∀ l,
  notices (pollResults useMock_cfg active results l)
  = notices l ++ omap (issued_notice active) results.
Proof.
  induction results as [|entry results IH]; intros l.
  - by rewrite app_nil_r.
  - change (pollResults useMock_cfg active (entry :: results) l)
      with (pollResults useMock_cfg active results (pollResult useMock_cfg active entry l)).
    rewrite IH, pollResult_notices, <- app_assoc. f_equal.
    cbn. by destruct (issued_notice active entry).
Qed.

Lemma pollResult_updates entry l link :
  updates (pollResult useMock_cfg active entry l) !! link
  = match written_for link active entry with
    | Some s => Some s
    | None => updates l !! link
    end.
Proof.
  destruct entry as [taskId result].
  unfold pollResult, written_for, written_status, task_linkId. cbn [fst snd].
  repeat case_match; simplify_eq; cbn; try done.
  all: try (destruct useMock_cfg; cbn).
  all: try match goal with
       | H : String.eqb ?a ?b = true |- _ => apply String.eqb_eq in H; subst
       end; rewrite ?lookup_insert_eq; try done.
  all: try match goal with
       | H : String.eqb ?a ?b = false |- _ =>
           apply String.eqb_neq in H; by rewrite lookup_insert_ne
       end.
Qed.

Lemma pollResults_updates results link : ∀ l,
  omap (written_for link active) results = [] →
  updates (pollResults useMock_cfg active results l) !! link = updates l !! link.
Proof.
  induction results as [|entry results IH]; intros l Hnone; [done|].
  change (pollResults useMock_cfg active (entry :: results) l)
    with (pollResults useMock_cfg active results (pollResult useMock_cfg active entry l)).
  cbn in Hnone. destruct (written_for link active entry) eqn:Hw; [done|].
  rewrite IH by done. by rewrite pollResult_updates, Hw.
Qed.

Lemma issued_notice_error entry n :
  issued_notice active entry = Some n → notice_type n = error →
  result_unusable entry.2 = true
  ∨ is_str (prop (default JUndefined (res_data entry.2)) "status") "failed" = true.
Proof.
  unfold issued_notice. intros H Herr.
  repeat case_match; simplify_eq; auto; discriminate.
Qed.

End PollSummary.

(** C7, counterexample: of two tasks on the same link the first is reported
    failed and the second completed; the committed banner reads
    ["Provisioning completed."] and the link is MATERIALIZED. *)
Lemma failure_surfacing_fails : ¬ Claimed.failure_surfacing.
Proof.
  intros H.
  destruct (H false two_tasks_one_link failed_then_completed page_polling
              (pollResults false two_tasks_one_link
                 (results_of failed_then_completed (keys two_tasks_one_link))
                 (poll_init two_tasks_one_link))
              "task_A" "q1" task_failed) as [Hfailed _]; try reflexivity.
  - apply list_elem_of_here.
  - discriminate.
  - destruct (Hfailed eq_refl) as [Hnotice _]. vm_compute in Hnotice. discriminate Hnotice.
Qed.

(** C7 (as amended): a poll step surfaces failures through the banner, which
    shows the last notice the step issues, and through the status of the
    links, where the last task written for a link wins. A task reporting
    ["failed"] issues an error notice whose message is the task's
    [errorMessage], or ["Provisioning failed."] when that is missing or
    empty, and is dropped from the active tasks; the committed banner shows
    that notice when no later task of the step issues one, and the link is
    FAILED when no later task of the step writes the same link. A task
    reporting ["pending"] or ["processing"] issues no notice and leaves its
    link PROVISIONING, again unless a later task writes that link. Terminal
    failures are not the only ones surfaced: a task whose status could not
    be fetched issues an error notice too, with the message of the error or
    ["Task status unavailable."], marks its link FAILED and is dropped.
    Every error notice of a step comes from one of these two cases. *)
Theorem poll_surfaces_failures (useMock_cfg : bool) (active : TaskTable)
    (statusOf : string → ApiResult JsVal) (before after : list string)
    (taskId linkId : string) (st : PageState) :
  keys active = before ++ taskId :: after →
  lookup_task active taskId = Some {| at_linkId := linkId |} →
  linkId ≠ "" →
  ∃ final,
    pollTasks useMock_cfg active statusOf false = Some final
    ∧ let shown := commitPoll final st in
      let own := (taskId, statusOf taskId) in
      let rest := results_of statusOf after in
      notices final = omap (issued_notice active) (results_of statusOf (keys active))
      ∧ notice shown = match last (notices final) with
                       | Some n => Some n
                       | None => notice st
                       end
      ∧ (∀ n, n ∈ notices final → notice_type n = error →
           ∃ other, other ∈ keys active
             ∧ (result_unusable (statusOf other) = true
                ∨ prop (default JUndefined (res_data (statusOf other))) "status"
                  = JStr "failed"))
      ∧ (∀ d, res_ok (statusOf taskId) = true → res_data (statusOf taskId) = Some d →
              truthy d = true →
           (prop d "status" = JStr "failed" →
              failure_notice d ∈ notices final
              ∧ notice_type (failure_notice d) = error
              ∧ (∀ msg, prop d "errorMessage" = JStr msg → msg ≠ "" →
                   notice_message (failure_notice d) = JStr msg)
              ∧ (prop d "errorMessage" = JUndefined ∨ prop d "errorMessage" = JStr "" →
                   notice_message (failure_notice d) = JStr "Provisioning failed.")
              ∧ (taskId ∉ keys (activeTasks shown))
              ∧ (omap (issued_notice active) rest = [] →
                   notice shown = Some (failure_notice d))
              ∧ (omap (written_for linkId active) rest = [] →
                   linkStatus shown !! linkId = Some FAILED))
           ∧ (prop d "status" = JStr "pending" ∨ prop d "status" = JStr "processing" →
              issued_notice active own = None
              ∧ (omap (written_for linkId active) rest = [] →
                   linkStatus shown !! linkId = Some PROVISIONING)))
      ∧ (result_unusable (statusOf taskId) = true →
           unavailable_notice (statusOf taskId) ∈ notices final
           ∧ (taskId ∉ keys (activeTasks shown))
           ∧ (omap (issued_notice active) rest = [] →
                notice shown = Some (unavailable_notice (statusOf taskId)))
           ∧ (omap (written_for linkId active) rest = [] →
                linkStatus shown !! linkId = Some FAILED)).
Proof.
  intros Hkeys Hlook Hlink.
  set (l0 := pollResults useMock_cfg active (results_of statusOf before) (poll_init active)).
  set (l1 := pollResult useMock_cfg active (taskId, statusOf taskId) l0).
  set (final := pollResults useMock_cfg active (results_of statusOf after) l1).
  assert (pollTasks useMock_cfg active statusOf false = Some final) as Hrun.
  { unfold pollTasks. rewrite Hkeys, fmap_app, fmap_cons.
    by rewrite pollResults_app. }
  assert (String.eqb linkId "" = false) as Hlink'.
  { by destruct (String.eqb_spec linkId ""). }
  assert (task_linkId active taskId = Some linkId) as Htl.
  { unfold task_linkId. rewrite Hlook. cbn. by rewrite Hlink'. }
  assert (notices final = (notices l0 ++ option_list (issued_notice active (taskId, statusOf taskId)))
                          ++ omap (issued_notice active) (results_of statusOf after)) as Hnot.
  { unfold final, l1. by rewrite pollResults_notices, pollResult_notices. }
  assert (∀ s, written_for linkId active (taskId, statusOf taskId) = Some s →
               omap (written_for linkId active) (results_of statusOf after) = [] →
               linkStatus (commitPoll final st) !! linkId = Some s) as Hwritten.
  { intros s Hw Hnone. apply commitPoll_linkStatus. unfold final.
    rewrite pollResults_updates by done. unfold l1. by rewrite pollResult_updates, Hw. }
  assert (terminal_result (statusOf taskId) = true →
          taskId ∉ keys (activeTasks (commitPoll final st))) as Hdrop.
  { intros Hterm.
    destruct (pollResults_terminal useMock_cfg active
                (results_of statusOf (keys active)) (poll_init active)
                taskId (statusOf taskId)) as [Hout Hch]; [|done|].
    { apply list_elem_of_fmap. exists taskId. split; [done|]. rewrite Hkeys. set_solver. }
    unfold pollTasks in Hrun. injection Hrun as Hrun. unfold results_of in *.
    rewrite Hrun in Hout, Hch. cbn. by rewrite Hch. }
  exists final. split; [done|]. cbn zeta.
  split.
  { unfold pollTasks in Hrun. injection Hrun as <-.
    by rewrite pollResults_notices. }
  split; [done|].
  split.
  { intros n Hn Herr.
    unfold pollTasks in Hrun. injection Hrun as Hrun.
    rewrite <- Hrun, pollResults_notices in Hn. cbn in Hn.
    apply list_elem_of_omap in Hn as ([other result] & Hin & Hissued).
    apply list_elem_of_fmap in Hin as (other' & [= -> ->] & Hin).
    exists other'. split; [done|].
    destruct (issued_notice_error active _ n Hissued Herr) as [Hu | Hf]; [by left|right].
    cbn in Hf. unfold is_str in Hf.
    destruct (prop _ "status"); try discriminate Hf.
    by apply String.eqb_eq in Hf as ->. }
  split.
  - intros d Hok Hdata Htruthy.
    assert (result_unusable (statusOf taskId) = false) as Husable.
    { unfold result_unusable. by rewrite Hok, Hdata, Htruthy. }
    split.
    + intros Hst.
      assert (issued_notice active (taskId, statusOf taskId) = Some (failure_notice d)) as Hiss.
      { unfold issued_notice. cbn [fst snd]. rewrite Htl, Husable, Hdata.
        cbn [default from_option id]. by rewrite Hst. }
      rewrite Hiss in Hnot. cbn [option_list option_rect] in Hnot.
      split; [rewrite Hnot; set_solver|].
      split; [done|].
      split; [intros msg Hmsg Hne; unfold failure_notice, or; cbn; rewrite Hmsg; cbn;
              by destruct (String.eqb_spec msg "")|].
      split; [intros [Hmsg | Hmsg]; unfold failure_notice, or; cbn; by rewrite Hmsg|].
      split.
      { apply Hdrop. unfold terminal_result. rewrite Husable, Hdata.
        cbn [default from_option id]. by rewrite Hst. }
      split.
      { intros Hnone. unfold commitPoll; cbn [notice]. rewrite Hnot, Hnone, app_nil_r. by rewrite last_snoc. }
      apply Hwritten. unfold written_for, written_status. cbn [fst snd].
      rewrite Htl, Husable, Hdata. cbn [default from_option id]. rewrite Hst.
      by rewrite String.eqb_refl.
    + intros Hst. split.
      { unfold issued_notice. cbn [fst snd]. rewrite Htl, Husable, Hdata.
        cbn [default from_option id]. by destruct Hst as [-> | ->]. }
      apply Hwritten. unfold written_for, written_status. cbn [fst snd].
      rewrite Htl, Husable, Hdata. cbn [default from_option id].
      rewrite String.eqb_refl. by destruct Hst as [-> | ->].
  - intros Hun.
    assert (issued_notice active (taskId, statusOf taskId)
            = Some (unavailable_notice (statusOf taskId))) as Hiss.
    { unfold issued_notice. cbn [fst snd]. by rewrite Htl, Hun. }
    rewrite Hiss in Hnot. cbn [option_list option_rect] in Hnot.
    split; [rewrite Hnot; set_solver|].
    split.
    { apply Hdrop. unfold terminal_result. by rewrite Hun. }
    split.
    { intros Hnone. unfold commitPoll; cbn [notice]. rewrite Hnot, Hnone, app_nil_r. by rewrite last_snoc. }
    apply Hwritten. unfold written_for, written_status. cbn [fst snd].
    rewrite Htl, Hun. by rewrite String.eqb_refl.
Qed.

(** ** The page and its timers *)

Lemma keys_cons k v (t : TaskTable) x : x ∈ keys ((k, v) :: t) ↔ x = k ∨ x ∈ keys t.
Proof. unfold keys. cbn. apply elem_of_cons. Qed.

Lemma keys_insert_index n k v t x :
  x ∈ keys (insert_index n k v t) ↔ x = k ∨ x ∈ keys t.
Proof.
  induction t as [|[k' v'] t IH]; cbn [insert_index].
  - by rewrite keys_cons.
  - destruct (array_index k') as [n'|]; [destruct (n' <? n)%N|].
    all: rewrite !keys_cons, ?IH, ?keys_cons; tauto.
Qed.

Lemma keys_set_task k v t x :
  x ∈ keys (set_task k v t) ↔ x = k ∨ x ∈ keys t.
Proof.
  unfold set_task. case_bool_decide as Hin.
  - assert (keys ((λ kv : string * ActiveTask,
                     if String.eqb kv.1 k then (kv.1, v) else kv) <$> t) = keys t) as ->.
    { unfold keys. rewrite <- list_fmap_compose. apply list_fmap_ext.
      intros i [k' v'] _. cbn. by destruct (String.eqb k' k). }
    split; [auto|]. by intros [-> | ?].
  - destruct (array_index k); [apply keys_insert_index|].
    unfold keys. rewrite fmap_app, elem_of_app. cbn. rewrite list_elem_of_singleton. tauto.
Qed.









(** *** The interval timer *)












(** *** A poll that settles *)



Lemma handleJitProvision_active property_key link result st :
  activeTasks (handleJitProvision property_key link result st).1
  = if follows result then
      set_task (task_key property_key (prop (default JUndefined (res_data result)) "taskId"))
        {| at_linkId := link_id link |} (activeTasks st)
    else activeTasks st.
Proof.
  unfold handleJitProvision, follows. destruct (result_usable result); cbn; [|done].
  by destruct (_ || _).
Qed.

Section Machine.
Variable property_key : JsVal → string.
Variable useMock_cfg : bool.














End Machine.

Section PollKeeps.
Variable useMock_cfg : bool.
Variable active : TaskTable.



End PollKeeps.





(** ** [requestJson] on an arbitrary network *)

Section Settles.
Context {T : Type}.
Variable net : Network T.
Variable r : FetchRequest.
Variable rt : RetryOptions.

Lemma deciding_attempt_bounds n : ∀ a,
  (a ≤ deciding_attempt net n a ≤ a + n)%nat.
Proof.
  induction n as [|n IH]; intros a; cbn; [lia|].
  destruct (readResponse (net a)); [|lia].
  specialize (IH (S a)). lia.
Qed.


Lemma loop_nat_fails n a w e :
  readResponse (net a) = inl e →
  requestJson_loop net r rt (S n) (Z.of_nat a) w =
    if (Z.of_nat a >=? retries rt)%Z then (inl e, with_trace w [EvFetch (Z.of_nat a) r])
    else requestJson_loop net r rt n (Z.of_nat (S a))
           (with_trace w [EvFetch (Z.of_nat a) r;
                          EvSleep (backoffMs rt * (Z.of_nat a + 1))]).
Proof.
  intros He. rewrite (loop_attempt_fails net r rt n (Z.of_nat a) w e).
  - by replace (Z.of_nat a + 1)%Z with (Z.of_nat (S a)) by lia.
  - by rewrite Nat2Z.id.
Qed.

Lemma loop_nat_succeeds n a w v :
  readResponse (net a) = inr v →
  requestJson_loop net r rt (S n) (Z.of_nat a) w
  = (inr v, with_trace w [EvFetch (Z.of_nat a) r]).
Proof.
  intros He. apply loop_attempt_succeeds. by rewrite Nat2Z.id.
Qed.

Lemma loop_settles n : ∀ a w,
  (Z.of_nat a + Z.of_nat n = retries rt)%Z →
  requestJson_loop net r rt (S n) (Z.of_nat a) w
  = (readResponse (net (deciding_attempt net n a)),
     with_trace w (retry_trace r rt (deciding_attempt net n a - a) (Z.of_nat a)
                   ++ [EvFetch (Z.of_nat (deciding_attempt net n a)) r])).
Proof.
  induction n as [|n IH]; intros a w Hsum.
  - cbn [deciding_attempt]. rewrite Nat.sub_diag. cbn [retry_trace app].
    destruct (readResponse (net a)) as [e|v] eqn:Ha.
    + rewrite (loop_nat_fails 0 a w e Ha), ?Ha.
      destruct (Z.geb_spec (Z.of_nat a) (retries rt)); [done | exfalso; lia].
    + rewrite ?Ha. by apply loop_nat_succeeds.
  - cbn [deciding_attempt].
    destruct (readResponse (net a)) as [e|v] eqn:Ha.
    + rewrite (loop_nat_fails (S n) a w e Ha).
      destruct (Z.geb_spec (Z.of_nat a) (retries rt)); [exfalso; lia|].
      rewrite IH by lia. rewrite with_trace_app. do 2 f_equal.
      pose proof (deciding_attempt_bounds n (S a)) as Hb.
      replace (deciding_attempt net n (S a) - a)%nat
        with (S (deciding_attempt net n (S a) - S a)) by lia.
      cbn [retry_trace app]. by replace (Z.of_nat a + 1)%Z with (Z.of_nat (S a)) by lia.
    + rewrite Nat.sub_diag. cbn [retry_trace app].
      rewrite ?Ha. by apply loop_nat_succeeds.
Qed.

End Settles.

Lemma requestJson_run {T} (form_encode : string → string)
    (cfg : ApiClientOptions) (net : Network T) (path : string)
    (options : RequestOptions) (w : World) :
  let rt := default DEFAULT_RETRY (opt_retry options) in
  let r := request_of form_encode cfg path options in
  let k := deciding_attempt net (Z.to_nat (retries rt)) 0 in
  (0 ≤ retries rt)%Z →
  requestJson form_encode cfg net path options w
    = (readResponse (net k),
       with_trace w (retry_trace r rt k 0 ++ [EvFetch (Z.of_nat k) r])).
Proof.
  intros rt r k Hpos. unfold requestJson. fold rt.
  change (requestJson_loop net _ rt) with (requestJson_loop net r rt).
  replace (Z.to_nat (retries rt + 1)) with (S (Z.to_nat (retries rt))) by lia.
  change 0%Z with (Z.of_nat 0).
  rewrite (loop_settles net r rt (Z.to_nat (retries rt)) 0 w) by lia.
  fold k. by rewrite Nat.sub_0_r.
Qed.


(** ** The wrappers on a failing backend, and what each mode leaves alone *)

Lemma catch_as_fail_reported {T} fallback e w :
  catch_as_fail (T:=T) fallback e w
  = (inr {| res_ok := false; res_data := None;
            res_error := Some (reported fallback e); res_meta := None |}, w).
Proof. by destruct e. Qed.

(** A wrapper's call runs under the default policy: one retry. *)
Lemma default_call_run {T} form_encode cfg (net : Network T) path options w :
  opt_retry options = None →
  requestJson form_encode cfg net path options w
  = (readResponse (net (deciding_attempt net 1 0)),
     with_trace w (retry_trace (request_of form_encode cfg path options) DEFAULT_RETRY
                     (deciding_attempt net 1 0) 0
                   ++ [EvFetch (Z.of_nat (deciding_attempt net 1 0))
                         (request_of form_encode cfg path options)])).
Proof.
  intros Hnone.
  pose proof (requestJson_run form_encode cfg net path options w) as Hrun.
  cbv zeta in Hrun. rewrite Hnone in Hrun. by apply Hrun.
Qed.

(** X2: in backend mode, when the attempt that ends the request throws, each
    wrapper resolves to a failed result that reports it: for an [ApiError]
    (a reply that is not OK) its message, its HTTP status and its request id;
    for anything else (network failure, timeout, unreadable body) the
    wrapper's own message, with neither status nor request id. The task
    store is not touched. *)
Theorem wrappers_report_last_failure (form_encode : string → string)
    (cfg : ApiClientOptions) (env : Env) (net : Network JsVal) (w : World) (e : Thrown) :
  useMock cfg = false →
  readResponse (net (deciding_attempt net 1 0)) = inl e →
  (∀ params, ∃ w',
     saveVirtualLink form_encode cfg env net params w
     = (inr {| res_ok := false; res_data := None;
               res_error := Some (reported "Failed to save virtual link" e);
               res_meta := None |}, w')
     ∧ mockTasks w' = mockTasks w)
  ∧ (∀ params, ∃ w',
     triggerJitProvision form_encode cfg env net params w
     = (inr {| res_ok := false; res_data := None;
               res_error := Some (reported "Failed to trigger JIT provisioning" e);
               res_meta := None |}, w')
     ∧ mockTasks w' = mockTasks w)
  ∧ (∀ taskId, ∃ w',
     getTaskStatus form_encode cfg net taskId w
     = (inr {| res_ok := false; res_data := None;
               res_error := Some (reported "Failed to fetch task status" e);
               res_meta := None |}, w')
     ∧ mockTasks w' = mockTasks w).
Proof.
  intros Hmock He. split; [|split].
  - intros params. unfold saveVirtualLink, saveVirtualLink_call. rewrite Hmock.
    unfold_m. rewrite default_call_run by done. rewrite He.
    rewrite catch_as_fail_reported. by eexists.
  - intros params. unfold triggerJitProvision, triggerJitProvision_call. rewrite Hmock.
    unfold_m. rewrite default_call_run by done. rewrite He.
    rewrite catch_as_fail_reported. by eexists.
  - intros taskId. unfold getTaskStatus, getTaskStatus_call. rewrite Hmock.
    unfold_m. rewrite default_call_run by done. rewrite He.
    rewrite catch_as_fail_reported. by eexists.
Qed.

(** ** The handler of "Watch Now" *)

Lemma lookup_task_None t k : k ∉ keys t → lookup_task t k = None.
Proof.
  induction t as [|[k' v'] t IH]; [done|].
  rewrite keys_cons. intros Hout. cbn.
  destruct (String.eqb_spec k' k) as [-> | Hne]; [exfalso; apply Hout; by left|].
  apply IH. intros H. apply Hout. by right.
Qed.

Lemma lookup_task_insert_index n k v t :
  k ∉ keys t → lookup_task (insert_index n k v t) k = Some v.
Proof.
  induction t as [|[k' v'] t IH]; intros Hout; cbn.
  - by rewrite String.eqb_refl.
  - rewrite keys_cons in Hout.
    assert (String.eqb k' k = false) as Hne.
    { destruct (String.eqb_spec k' k) as [-> | Hne]; [exfalso; apply Hout; by left|done]. }
    destruct (array_index k') as [n'|]; [destruct (n' <? n)%N|]; cbn.
    + rewrite Hne. apply IH. intros H. apply Hout. by right.
    + by rewrite String.eqb_refl.
    + by rewrite String.eqb_refl.
Qed.

Lemma lookup_task_app_new k v t :
  k ∉ keys t → lookup_task (t ++ [(k, v)]) k = Some v.
Proof.
  induction t as [|[k' v'] t IH]; intros Hout; cbn.
  - by rewrite String.eqb_refl.
  - rewrite keys_cons in Hout.
    destruct (String.eqb_spec k' k) as [-> | Hne]; [exfalso; apply Hout; by left|].
    apply IH. intros H. apply Hout. by right.
Qed.

Lemma lookup_task_overwrite k v t :
  k ∈ keys t →
  lookup_task ((λ kv : string * ActiveTask,
                  if String.eqb kv.1 k then (kv.1, v) else kv) <$> t) k = Some v.
Proof.
  induction t as [|[k' v'] t IH]; intros Hin.
  - by apply elem_of_nil in Hin.
  - rewrite keys_cons in Hin. cbn.
    destruct (String.eqb_spec k' k) as [-> | Hne]; cbn.
    + by rewrite String.eqb_refl.
    + destruct (String.eqb_spec k' k) as [? | _]; [done|].
      apply IH. by destruct Hin as [-> | Hin].
Qed.

Lemma lookup_task_set_task k v t : lookup_task (set_task k v t) k = Some v.
Proof.
  unfold set_task. case_bool_decide as Hin.
  - by apply lookup_task_overwrite.
  - destruct (array_index k); [by apply lookup_task_insert_index|by apply lookup_task_app_new].
Qed.

(** X3: what "Watch Now" leaves on the page once [triggerJitProvision] has
    resolved. A result that is not ok, or has no data, shows an error notice
    with the error's message, or ["Provisioning failed."], and changes
    neither a link status nor the active tasks. A usable result sets the
    status of the clicked link from the task's status and shows a notice that
    is never an error (info when the result carries a warning, else
    success); the task is followed, under its [taskId] and with the id of
    the clicked link, exactly when its status is ["pending"] or
    ["processing"], and the tasks already followed stay so. *)
Theorem handleJitProvision_outcome (property_key : JsVal → string) (link : LinkItem)
    (result : ApiResult JsVal) (st : PageState) :
  let st' := (handleJitProvision property_key link result st).1 in
  let taskRecord := default JUndefined (res_data result) in
  let taskId := task_key property_key (prop taskRecord "taskId") in
  (result_usable result = false →
     notice st' = Some {| notice_type := error;
                          notice_message :=
                            JStr (or_str (message <$> res_error result)
                                    "Provisioning failed.") |}
     ∧ linkStatus st' = linkStatus st
     ∧ activeTasks st' = activeTasks st)
  ∧ (result_usable result = true →
     linkStatus st' !! link_id link = Some (mapTaskStatus_of (prop taskRecord "status"))
     ∧ (∃ n, notice st' = Some n
             ∧ notice_type n = match truthy_str (res_meta result ≫= warning) with
                               | Some _ => info
                               | None => success
                               end)
     ∧ (∀ x, x ∈ keys (activeTasks st) → x ∈ keys (activeTasks st'))
     ∧ (follows result = true →
          lookup_task (activeTasks st') taskId = Some {| at_linkId := link_id link |})
     ∧ (follows result = false → activeTasks st' = activeTasks st)).
Proof.
  intros st' taskRecord taskId. subst st'.
  pose proof (handleJitProvision_active property_key link result st) as Hact.
  fold taskRecord in Hact. fold taskId in Hact.
  split.
  - intros Hus. unfold handleJitProvision. by rewrite Hus.
  - intros Hus. split; [|split; [|split; [|split]]].
    + unfold handleJitProvision. rewrite Hus. cbn. by rewrite lookup_insert_eq.
    + unfold handleJitProvision. rewrite Hus. cbn. by eexists.
    + intros x Hx. rewrite Hact. destruct (follows result); [|done].
      apply keys_set_task. by right.
    + intros Hf. rewrite Hact, Hf. apply lookup_task_set_task.
    + intros Hf. by rewrite Hact, Hf.
Qed.

(** ** Witnesses on sample inputs *)

(** C2, witness: a status outside the four task statuses. *)
Lemma mapTaskStatus_total_witness : mapTaskStatus "cancelled" = PROVISIONING.
Proof.
  apply (proj1 (proj2 (proj2 (proj2 (proj2 mapTaskStatus_total)))) "cancelled");
    discriminate.
Defined.


(** C7, witness: a task still processing, then a failed one on another
    link; the failed task's message reaches the banner. *)
Lemma poll_surfaces_failures_witness :
  ∃ final,
    pollTasks false two_tasks processing_and_failed false = Some final
    ∧ notice (commitPoll final page_polling)
      = Some {| notice_type := error; notice_message := JStr "Share link expired" |}
    ∧ linkStatus (commitPoll final page_polling) !! "q1" = Some FAILED
    ∧ ("task_A" ∉ keys (activeTasks (commitPoll final page_polling))).
Proof.
  destruct (poll_surfaces_failures false two_tasks processing_and_failed ["task_P"] []
              "task_A" "q1" page_polling) as (final & Hrun & _ & _ & _ & Husable & _).
  - reflexivity.
  - reflexivity.
  - discriminate.
  - exists final. split; [exact Hrun|].
    destruct (Husable task_failed eq_refl eq_refl eq_refl) as [Hfailed _].
    destruct (Hfailed eq_refl) as (_ & _ & _ & _ & Hout & Hnotice & Hlink).
    split; [exact (Hnotice eq_refl)|]. split; [exact (Hlink eq_refl) | exact Hout].
Defined.

(** C10, witness: one group, three items, three links. *)
Lemma searchQuarkLinks_flattens_witness :
  ∃ w1,
    searchQuarkLinks id backend_cfg search_net search_params empty_world
    = (inr (Value (Spec.flattenSearch search_reply)), w1)
    ∧ Spec.flattenSearch search_reply
      = [ {| link_id := "m42-0"; link_title := "Signal Drift";
             shareUrl := "https://pan.quark.cn/s/a1";
             quality := None; size_label := None; matchScore := None |};
          {| link_id := "m42-1"; link_title := "Signal Drift";
             shareUrl := "https://pan.quark.cn/s/a2";
             quality := None; size_label := None; matchScore := None |};
          {| link_id := "chan-a-2-0"; link_title := "Untitled";
             shareUrl := "https://pan.quark.cn/s/a3";
             quality := None; size_label := None; matchScore := None |} ].
Proof.
  eexists. split; [|reflexivity].
  apply (proj2 (proj2 (searchQuarkLinks_flattens id backend_cfg search_net
                         search_params empty_world)) eq_refl).
  - discriminate.
  - reflexivity.
Defined.


(** X2, witness: every attempt is answered 404 with a request id. *)
Lemma wrappers_report_last_failure_witness :
  ∃ w',
    getTaskStatus id backend_cfg not_found "t-1" empty_world
    = (inr (fail "Request failed with status 404" (Some 404%Z) None (Some "req-7")), w')
    ∧ mockTasks w' = ∅.
Proof.
  destruct (wrappers_report_last_failure id backend_cfg click1 not_found empty_world
              (ThrowApiError
                 {| err_message := "Request failed with status 404"; err_status := 404;
                    err_payload := Some (JStr "Not Found"); err_requestId := Some "req-7" |})
              eq_refl eq_refl) as (_ & _ & Hstatus).
  destruct (Hstatus "t-1") as (w' & Hres & Hstore).
  exists w'. split; [exact Hres | exact Hstore].
Defined.

(** X3, witness: the backend has started a task for the first link. *)
Lemma handleJitProvision_outcome_witness :
  let st' := (handleJitProvision no_key link_q1 (provisioned "task_A" "q1")
                (page mounted)).1 in
  linkStatus st' !! "q1" = Some PROVISIONING
  ∧ lookup_task (activeTasks st') "task_A" = Some {| at_linkId := "q1" |}.
Proof.
  destruct (proj2 (handleJitProvision_outcome no_key link_q1 (provisioned "task_A" "q1")
                     (page mounted)) eq_refl) as (Hlink & _ & _ & Hfollowed & _).
  split; [exact Hlink | exact (Hfollowed eq_refl)].
Defined.
